(** * futunn.token: the token manager of the Futunn quote client

    A shallow embedding of [futunn/token.py] (class [TokenManager]) and
    of the part of [futunn/constants.py] it reads, with the properties
    of section 8 of the specification stated over it.

    Layout:
    - [Re]: the fragment of Python's [re] syntax and of its backtracking
      search that the two extraction patterns use, with a declarative
      account of matching;
    - [Py]: the Python conversions the f-strings and truth tests rely on;
    - [Coro]: coroutines as trees of effects (field access, logging,
      awaiting the transport), run sequentially or interleaved;
    - [Token]: the methods of [TokenManager];
    - the theorems. *)

From Stdlib Require Import ZArith Ascii String List Lia.
From Stdlib Require Import DecimalString DecimalZ DecimalPos.
From stdpp Require Import base option strings gmap.

Open Scope string_scope.

(** A Python [str] is modelled as a [string]: a sequence of code points
    below 256. *)

(* ===================================================================== *)
(** ** Regular expressions *)
(* ===================================================================== *)

Module Re.

(** The double quote, which a string literal cannot hold. *)
Definition dq : ascii := "034"%char.

(** One-character matchers. *)
Inductive cset : Type :=
| Chars (cs : list ascii)       (* a literal, or a class [[...]] *)
| NotChars (cs : list ascii)    (* a negated class [[^...]] *)
| Whitespace.                   (* [\s] *)

(** [\s] in a [str] pattern is [str.isspace] on one character: TAB to
    CR, FS to US, SPACE, NEL and NBSP among the code points below 256. *)
Definition isspace (a : ascii) : bool :=
  let n := nat_of_ascii a in
  (((9 <=? n) && (n <=? 13)) || ((28 <=? n) && (n <=? 32))
   || (n =? 133) || (n =? 160))%nat.

Definition mem (a : ascii) (cs : list ascii) : bool :=
  existsb (Ascii.eqb a) cs.

Definition cset_mem (a : ascii) (c : cset) : bool :=
  match c with
  | Chars cs => mem a cs
  | NotChars cs => negb (mem a cs)
  | Whitespace => isspace a
  end.

(** Patterns: quantifiers apply to one-character matchers, which is
    all the patterns of [token.py] need. *)
Inductive re : Type :=
| Eps
| One (c : cset)
| Opt (c : cset)                (* [c?], greedy *)
| Star (c : cset)               (* [c*], greedy *)
| Plus (c : cset)               (* [c+], greedy *)
| Group (r : re)                (* [( r )], capturing group 1 *)
| Seq (r1 r2 : re).

Fixpoint lit (s : string) : re :=
  match s with
  | EmptyString => Eps
  | String a EmptyString => One (Chars [a])
  | String a s' => Seq (One (Chars [a])) (lit s')
  end.

(** The text between two positions of the subject, both given as the
    suffix that starts there. *)
Definition consumed (s s' : string) : string :=
  substring 0 (String.length s - String.length s') s.

Section Matcher.
Context {A : Type}.

(** [c*] followed by [k]: the longest run first, then shorter ones. *)
Fixpoint repeat_greedy (c : cset) (s : string) (k : string -> option A)
  : option A :=
  match s with
  | String a s' =>
      if cset_mem a c then
        match repeat_greedy c s' k with
        | Some x => Some x
        | None => k s
        end
      else k s
  | EmptyString => k s
  end.

(** [m r s g k]: match [r] at the head of [s], group 1 being [g] so
    far, then the rest of the pattern [k]; alternatives are tried in
    the order of the backtracking engine. *)
Fixpoint m (r : re) (s : string) (g : option string)
    (k : string -> option string -> option A) : option A :=
  match r with
  | Eps => k s g
  | One c =>
      match s with
      | String a s' => if cset_mem a c then k s' g else None
      | EmptyString => None
      end
  | Opt c =>
      match s with
      | String a s' =>
          if cset_mem a c then
            match k s' g with
            | Some x => Some x
            | None => k s g
            end
          else k s g
      | EmptyString => k s g
      end
  | Star c => repeat_greedy c s (fun s' => k s' g)
  | Plus c =>
      match s with
      | String a s' =>
          if cset_mem a c then repeat_greedy c s' (fun s'' => k s'' g)
          else None
      | EmptyString => None
      end
  | Group r' => m r' s g (fun s' _ => k s' (Some (consumed s s')))
  | Seq r1 r2 => m r1 s g (fun s' g' => m r2 s' g' k)
  end.
End Matcher.

(** A match object, as far as the callers look at it: [group(1)], which
    is [None] for a group that took no part in the match. *)
Record Match : Type := { group_1 : option string }.

Definition match_at (r : re) (s : string) : option Match :=
  m r s None (fun _ g => Some {| group_1 := g |}).

(** [re.search]: the match at the leftmost position that has one. *)
Fixpoint search (r : re) (s : string) : option Match :=
  match match_at r s with
  | Some mt => Some mt
  | None =>
      match s with
      | String _ s' => search r s'
      | EmptyString => None
      end
  end.

(** *** Declarative matching

    [matches r s g s' g']: [r] matches a prefix of [s] and leaves [s'],
    taking group 1 from [g] to [g']. *)
Inductive matches : re -> string -> option string -> string -> option string -> Prop :=
| M_Eps s g : matches Eps s g s g
| M_One c a s g :
    cset_mem a c = true -> matches (One c) (String a s) g s g
| M_Opt_skip c s g : matches (Opt c) s g s g
| M_Opt_take c a s g :
    cset_mem a c = true -> matches (Opt c) (String a s) g s g
| M_Star_stop c s g : matches (Star c) s g s g
| M_Star_more c a s s' g :
    cset_mem a c = true -> matches (Star c) s g s' g ->
    matches (Star c) (String a s) g s' g
| M_Plus c a s s' g :
    cset_mem a c = true -> matches (Star c) s g s' g ->
    matches (Plus c) (String a s) g s' g
| M_Group r s g s' g' :
    matches r s g s' g' ->
    matches (Group r) s g s' (Some (consumed s s'))
| M_Seq r1 r2 s g s1 g1 s2 g2 :
    matches r1 s g s1 g1 -> matches r2 s1 g1 s2 g2 ->
    matches (Seq r1 r2) s g s2 g2.

(** The pattern occurs somewhere in the subject. *)
Definition occurs (r : re) (s : string) : Prop :=
  exists pre rest s' g, s = pre ++ rest /\ matches r rest None s' g.

(** A pattern that leaves group 1 holding a non-empty text, whatever it
    held before. *)
Definition captures (r : re) : Prop :=
  forall s g s' g', matches r s g s' g' -> exists v, g' = Some v /\ v <> "".

(** A pattern that leaves group 1 alone. *)
Definition transparent (r : re) : Prop :=
  forall s g s' g', matches r s g s' g' -> g' = g.

(** *** The two patterns of [token.py] *)

Definition quotes : list ascii := [dq; "'"%char].

(** [["\']\s*[:=]\s*["\']([^"\']+)["\']]: what follows the key in both. *)
Definition quoted_value : re :=
  Seq (One (Chars quotes))
 (Seq (Star Whitespace)
 (Seq (One (Chars [":"; "="]%char))
 (Seq (Star Whitespace)
 (Seq (One (Chars quotes))
 (Seq (Group (Plus (NotChars quotes)))
      (One (Chars quotes))))))).

(** [r'csrf[_-]?token["\']\s*[:=]\s*["\']([^"\']+)["\']'] *)
Definition csrf_re : re :=
  Seq (lit "csrf")
 (Seq (Opt (Chars ["_"; "-"]%char))
 (Seq (lit "token") quoted_value)).

(** [r'quote[_-]?token["\']\s*[:=]\s*["\']([^"\']+)["\']'] *)
Definition quote_re : re :=
  Seq (lit "quote")
 (Seq (Opt (Chars ["_"; "-"]%char))
 (Seq (lit "token") quoted_value)).

End Re.

(* ===================================================================== *)
(** ** Python conversions *)
(* ===================================================================== *)

Module Py.

(** [str(n)] for an [int]. *)
Definition str_int (n : Z) : string := NilZero.string_of_int (Z.to_int n).

(** [str(b)] for a [bool]. *)
Definition str_bool (b : bool) : string := if b then "True" else "False".

(** [bool(v)] for an [Optional[str]]: [None] and the empty string are
    false. *)
Definition truthy (v : option string) : bool :=
  match v with
  | Some (String _ _) => true
  | Some EmptyString | None => false
  end.

(** [v or d] for an [Optional[str]] [v] and a [str] [d]. *)
Definition or_str (v : option string) (d : string) : string :=
  match v with
  | Some (String a s) => String a s
  | Some EmptyString | None => d
  end.

(** [v is None] *)
Definition is_None {A : Type} (v : option A) : bool :=
  match v with
  | None => true
  | Some _ => false
  end.

End Py.

(* ===================================================================== *)
(** ** The transport, the exceptions, the manager's fields *)
(* ===================================================================== *)

(** What [token.py] uses of [httpx]. *)
Module httpx.

(** The arguments of [AsyncClient.get]. *)
Record Request : Type := {
  url : string;
  req_headers : gmap string string;
  follow_redirects : bool
}.

(** A response. [headers] is keyed by the lower-cased field name, as
    [httpx.Headers] looks names up. *)
Record Response : Type := {
  status_code : Z;
  headers : gmap string string;
  cookies : gmap string string;
  text : string
}.

(** How a round trip ends: with a response, or with [httpx.RequestError]
    raised at the [await] ([msg] is [str(e)]). *)
Inductive Outcome : Type :=
| Responded (r : Response)
| Failed (msg : string).

End httpx.

(** The exceptions in play. [futunn/exceptions.py] is not among the
    sources; [TokenExpiredError] is taken as a class of its own, not
    derived from [httpx.RequestError], and built from a message. *)
Inductive exn : Type :=
| TokenExpiredError (msg : string)
| RequestError (msg : string).

(** [logging] levels used. *)
Inductive Level : Type := INFO | WARNING | ERROR.

(** The fields [__init__] creates, but for [client], which is the
    transport handed to [Coro.run]. *)
Record TokenManager : Type := {
  csrf_token : option string;
  quote_token : option string;
  _headers_cache : option (gmap string string)
}.

Definition set_csrf_token (v : option string) (self : TokenManager) : TokenManager :=
  {| csrf_token := v;
     quote_token := quote_token self;
     _headers_cache := _headers_cache self |}.

Definition set_quote_token (v : option string) (self : TokenManager) : TokenManager :=
  {| csrf_token := csrf_token self;
     quote_token := v;
     _headers_cache := _headers_cache self |}.

Definition set_headers_cache (v : option (gmap string string)) (self : TokenManager)
  : TokenManager :=
  {| csrf_token := csrf_token self;
     quote_token := quote_token self;
     _headers_cache := v |}.

(* ===================================================================== *)
(** ** Coroutines *)
(* ===================================================================== *)

Module Coro.
Import httpx.

(** A method body as a tree of its effects. [Await] is the one
    suspension point of the module, [await self.client.get(...)]. *)
Inductive coro (A : Type) : Type :=
| Return (a : A)
| Raise (e : exn)
| GetSelf (k : TokenManager -> coro A)
| SetSelf (f : TokenManager -> TokenManager) (k : coro A)
| Logger (lvl : Level) (msg : string) (k : coro A)
| Await (rq : Request) (k : Outcome -> coro A).

Arguments Return {A} a.
Arguments Raise {A} e.
Arguments GetSelf {A} k.
Arguments SetSelf {A} f k.
Arguments Logger {A} lvl msg k.
Arguments Await {A} rq k.

Fixpoint bind {A B : Type} (p : coro A) (f : A -> coro B) : coro B :=
  match p with
  | Return a => f a
  | Raise e => Raise e
  | GetSelf k => GetSelf (fun self => bind (k self) f)
  | SetSelf g k => SetSelf g (bind k f)
  | Logger lvl msg k => Logger lvl msg (bind k f)
  | Await rq k => Await rq (fun o => bind (k o) f)
  end.

#[global] Instance coro_ret : MRet coro := @Return.
#[global] Instance coro_bind : MBind coro := fun A B f p => bind p f.

(** [try: body except ...: handler]; [handler e] is [None] when no
    [except] clause applies to [e]. *)
Fixpoint try_except {A : Type} (body : coro A) (handler : exn -> option (coro A))
  : coro A :=
  match body with
  | Return a => Return a
  | Raise e =>
      match handler e with
      | Some h => h
      | None => Raise e
      end
  | GetSelf k => GetSelf (fun self => try_except (k self) handler)
  | SetSelf g k => SetSelf g (try_except k handler)
  | Logger lvl msg k => Logger lvl msg (try_except k handler)
  | Await rq k => Await rq (fun o => try_except (k o) handler)
  end.

Definition get_self : coro TokenManager := GetSelf Return.
Definition set_self (f : TokenManager -> TokenManager) : coro unit :=
  SetSelf f (Return tt).
Definition logger (lvl : Level) (msg : string) : coro unit :=
  Logger lvl msg (Return tt).

(** [await self.client.get(url, headers=..., follow_redirects=...)] *)
Definition client_get (rq : Request) : coro Response :=
  Await rq (fun o =>
    match o with
    | Responded r => Return r
    | Failed msg => Raise (RequestError msg)
    end).

(** *** Running a coroutine *)

(** The manager, the requests sent so far and the log records emitted
    so far, both oldest first. *)
Record World : Type := {
  self : TokenManager;
  sent : list Request;
  log : list (Level * string)
}.

Definition with_self (f : TokenManager -> TokenManager) (w : World) : World :=
  {| self := f (self w); sent := sent w; log := log w |}.
Definition with_sent (rq : Request) (w : World) : World :=
  {| self := self w; sent := sent w ++ [rq]; log := log w |}.
Definition with_log (lvl : Level) (msg : string) (w : World) : World :=
  {| self := self w; sent := sent w; log := log w ++ [(lvl, msg)] |}.

Inductive Result (A : Type) : Type :=
| Returned (a : A)
| Raised (e : exn).
Arguments Returned {A} a.
Arguments Raised {A} e.

(** One caller at a time: every [await] is answered before anything
    else runs. [client n] is how the round trip after [n] earlier ones
    ends. *)
Fixpoint run {A : Type} (client : nat -> Outcome) (p : coro A) (w : World)
  : Result A * World :=
  match p with
  | Return a => (Returned a, w)
  | Raise e => (Raised e, w)
  | GetSelf k => run client (k (self w)) w
  | SetSelf f k => run client k (with_self f w)
  | Logger lvl msg k => run client k (with_log lvl msg w)
  | Await rq k => run client (k (client (length (sent w)))) (with_sent rq w)
  end.

(** Number of round trips made between two worlds. *)
Definition fetches (w w' : World) : nat := length (sent w') - length (sent w).

(** A coroutine that never awaits. *)
Fixpoint sync {A : Type} (p : coro A) : Prop :=
  match p with
  | Return _ | Raise _ => True
  | GetSelf k => forall s, sync (k s)
  | SetSelf _ k | Logger _ _ k => sync k
  | Await _ _ => False
  end.

(** *** Interleaved callers

    The event loop runs a task until it suspends or ends; a suspended
    task resumes when its round trip ends. *)
Inductive Task (A : Type) : Type :=
| Pending (p : coro A)
| Suspended (rq : Request) (k : Outcome -> coro A)
| Finished (r : Result A).
Arguments Pending {A} p.
Arguments Suspended {A} rq k.
Arguments Finished {A} r.

Fixpoint advance {A : Type} (p : coro A) (w : World) : Task A * World :=
  match p with
  | Return a => (Finished (Returned a), w)
  | Raise e => (Finished (Raised e), w)
  | GetSelf k => advance (k (self w)) w
  | SetSelf f k => advance k (with_self f w)
  | Logger lvl msg k => advance k (with_log lvl msg w)
  | Await rq k => (Suspended rq k, with_sent rq w)
  end.

Record Loop (A : Type) : Type := {
  world : World;
  tasks : list (Task A)
}.
Arguments world {A} _.
Arguments tasks {A} _.

(** What the scheduler may do next. *)
Inductive Action : Type :=
| Start (i : nat)                    (* run task [i] to its first await *)
| Deliver (i : nat) (o : Outcome).   (* end the round trip of task [i] *)

Definition step {A : Type} (a : Action) (l : Loop A) : option (Loop A) :=
  match a with
  | Start i =>
      match tasks l !! i with
      | Some (Pending p) =>
          let '(t, w) := advance p (world l) in
          Some {| world := w; tasks := <[i := t]> (tasks l) |}
      | _ => None
      end
  | Deliver i o =>
      match tasks l !! i with
      | Some (Suspended _ k) =>
          let '(t, w) := advance (k o) (world l) in
          Some {| world := w; tasks := <[i := t]> (tasks l) |}
      | _ => None
      end
  end.

Fixpoint steps {A : Type} (acts : list Action) (l : Loop A) : option (Loop A) :=
  match acts with
  | [] => Some l
  | a :: acts' =>
      match step a l with
      | Some l' => steps acts' l'
      | None => None
      end
  end.

Definition is_suspended {A : Type} (t : Task A) : bool :=
  match t with
  | Suspended _ _ => true
  | _ => false
  end.

(** Round trips in flight: one per suspended task. *)
Definition in_flight {A : Type} (l : Loop A) : nat :=
  length (filter (fun t => is_suspended t = true) (tasks l)).

End Coro.

(* ===================================================================== *)
(** ** futunn/constants.py *)
(* ===================================================================== *)

Module constants.

Definition DEFAULT_USER_AGENT : string :=
  "Mozilla/5.0 (Macintosh; Intel Mac OS X 10_15_7) "
  ++ "AppleWebKit/537.36 (KHTML, like Gecko) "
  ++ "Chrome/141.0.0.0 Safari/537.36".

End constants.

(* ===================================================================== *)
(** ** futunn/token.py *)
(* ===================================================================== *)

Module Token.
Import httpx Coro.

Section WithUrls.

(** [urls.STOCK_LIST_PAGE]; [futunn/urls.py] is not among the sources,
    so the page address is a parameter of the development. *)
Variable STOCK_LIST_PAGE : string.

Definition __init__ : TokenManager :=
  {| csrf_token := None; quote_token := None; _headers_cache := None |}.

Definition _extract_csrf_token (response : Response) (cookies : gmap string string)
  : coro (option string) :=
  let csrf_token := headers response !! "x-csrf-token" in
  if Py.truthy csrf_token then mret csrf_token
  else
    let content := text response in
    match Re.search Re.csrf_re content with
    | Some mt => mret (Re.group_1 mt)
    | None =>
        logger WARNING "Could not extract CSRF token, using fallback";;
        mret (Some "iwtmChEzi0ixw18P983l5ai7")
    end.

Definition _extract_quote_token (response : Response) (cookies : gmap string string)
  : coro (option string) :=
  let content := text response in
  match Re.search Re.quote_re content with
  | Some mt => mret (Re.group_1 mt)
  | None =>
      logger WARNING "Could not extract quote token, using fallback";;
      mret (Some "99227e34c9")
  end.

(** The request of [_fetch_tokens]. *)
Definition page_request : Request :=
  {| url := STOCK_LIST_PAGE;
     req_headers :=
       <["User-Agent" := constants.DEFAULT_USER_AGENT]>
      (<["Accept" := "text/html,application/xhtml+xml,application/xml;q=0.9,*/*;q=0.8"]>
      (<["Accept-Language" := "en-US,en;q=0.9"]> ∅));
     follow_redirects := true |}.

Definition _fetch_tokens : coro unit :=
  try_except
    (logger INFO "Fetching authentication tokens from Futunn";;
     response ← client_get page_request;
     if negb (status_code response =? 200)%Z then
       Raise (TokenExpiredError
                ("Failed to fetch tokens: HTTP " ++ Py.str_int (status_code response)))
     else
       let cookies := cookies response in
       v ← _extract_csrf_token response cookies;
       set_self (set_csrf_token v);;
       v ← _extract_quote_token response cookies;
       set_self (set_quote_token v);;
       self ← get_self;
       logger INFO
         ("Successfully fetched tokens: csrf="
          ++ Py.str_bool (Py.truthy (csrf_token self))
          ++ ", quote=" ++ Py.str_bool (Py.truthy (quote_token self))))
    (fun e =>
       match e with
       | RequestError msg =>
           Some (logger ERROR ("Network error while fetching tokens: " ++ msg);;
                 Raise (TokenExpiredError ("Network error: " ++ msg)))
       | _ => None
       end).

Definition _build_headers (self : TokenManager) : gmap string string :=
  <["futu-x-csrf-token" := Py.or_str (csrf_token self) ""]>
 (<["quote-token" := Py.or_str (quote_token self) ""]>
 (<["referer" := STOCK_LIST_PAGE]>
 (<["user-agent" := constants.DEFAULT_USER_AGENT]>
 (<["accept" := "application/json, text/plain, */*"]> ∅)))).

Definition get_tokens : coro (gmap string string) :=
  self ← get_self;
  (if Py.is_None (csrf_token self) || Py.is_None (quote_token self)
   then _fetch_tokens
   else mret tt);;
  self ← get_self;
  mret (_build_headers self).

Definition refresh_tokens : coro (gmap string string) :=
  logger INFO "Refreshing authentication tokens";;
  set_self (set_csrf_token None);;
  set_self (set_quote_token None);;
  get_tokens.

Definition invalidate : coro unit :=
  logger INFO "Invalidating cached tokens";;
  set_self (set_csrf_token None);;
  set_self (set_quote_token None);;
  set_self (set_headers_cache None).

(** *** The life of a manager *)

(** The public calls. *)
Inductive Call : Type := GetTokens | RefreshTokens | Invalidate.

(** A call with its result dropped. *)
Definition call (c : Call) : coro unit :=
  match c with
  | GetTokens => get_tokens;; mret tt
  | RefreshTokens => refresh_tokens;; mret tt
  | Invalidate => invalidate
  end.

(** Right after construction: nothing sent, nothing logged. *)
Definition fresh : World :=
  {| self := __init__; sent := []; log := [] |}.

(** The worlds a manager can be in: those that public calls, made one
    after the other on one transport, lead to from construction. *)
Inductive reachable (client : nat -> Outcome) : World -> Prop :=
| reach_fresh : reachable client fresh
| reach_call c w :
    reachable client w -> reachable client (run client (call c) w).2.

(** The two states of the specification. *)
Definition Unauthenticated (self : TokenManager) : Prop :=
  csrf_token self = None /\ quote_token self = None.
Definition Authenticated (self : TokenManager) : Prop :=
  is_Some (csrf_token self) /\ is_Some (quote_token self).

(** Both tokens set or neither. *)
Definition both_or_neither (self : TokenManager) : Prop :=
  Unauthenticated self \/ Authenticated self.

(** What sequential use maintains: both tokens or neither, no token
    empty, and [_headers_cache] never filled. *)
Definition well_formed (self : TokenManager) : Prop :=
  both_or_neither self
  /\ csrf_token self <> Some "" /\ quote_token self <> Some ""
  /\ _headers_cache self = None.

(** *** Several callers at once *)

(** [n] callers of [get_tokens] on one manager, none started yet. *)
Definition callers (n : nat) (w : World) : Loop (gmap string string) :=
  {| world := w; tasks := replicate n (Pending get_tokens) |}.

(** A continuation that ends the call once the round trip is over:
    it sends nothing more, and either leaves the manager as it is or
    leaves it with both tokens. *)
Definition settles {A : Type} (k : Outcome -> coro A) : Prop :=
  forall o w, exists r w',
    advance (k o) w = (Finished r, w')
    /\ sent w' = sent w
    /\ (self w' = self w \/ Authenticated (self w')).

(** The tasks a loop of [get_tokens] callers holds. *)
Definition caller_task (t : Task (gmap string string)) : Prop :=
  match t with
  | Pending p => p = get_tokens
  | Suspended rq k => rq = page_request /\ settles k
  | Finished _ => True
  end.

(** What every interleaving of such callers maintains. *)
Definition loop_ok (l : Loop (gmap string string)) : Prop :=
  Forall caller_task (tasks l) /\ both_or_neither (self (world l)).

Definition is_pending {A : Type} (t : Task A) : bool :=
  match t with
  | Pending _ => true
  | _ => false
  end.

(** Callers that have not started yet. *)
Definition pending {A : Type} (l : Loop A) : nat :=
  length (filter (fun t => is_pending t = true) (tasks l)).

End WithUrls.

End Token.

(* ===================================================================== *)
(** ** Sample responses and worlds *)
(* ===================================================================== *)

Module Samples.
Import httpx Coro.

(** A page address to run the examples with. *)
Definition page : string := "https://www.futunn.com/quote/stock-list".

Definition q : string := String Re.dq "".

(** A body with both keys, each followed by a quoted value. *)
Definition body_both : string :=
  "{" ++ q ++ "csrf_token" ++ q ++ ": " ++ q ++ "abc123" ++ q ++ ", "
      ++ q ++ "quote_token" ++ q ++ ": " ++ q ++ "xyz789" ++ q ++ "}".

(** A body with neither. *)
Definition body_bare : string := "<html><body>Futunn</body></html>".

Definition ok_both : Response :=
  {| status_code := 200; headers := ∅; cookies := ∅; text := body_both |}.

Definition ok_bare : Response :=
  {| status_code := 200; headers := ∅; cookies := ∅; text := body_bare |}.

(** The header and the body disagree. *)
Definition ok_header : Response :=
  {| status_code := 200;
     headers := {[ "x-csrf-token" := "hdr456" ]};
     cookies := ∅;
     text := body_both |}.

(** The header is there, with an empty value. *)
Definition ok_empty_header : Response :=
  {| status_code := 200;
     headers := {[ "x-csrf-token" := "" ]};
     cookies := ∅;
     text := body_both |}.

Definition forbidden : Response :=
  {| status_code := 403; headers := ∅; cookies := ∅; text := "Forbidden" |}.

(** A transport whose every round trip ends the same way. *)
Definition always (o : Outcome) : nat -> Outcome := fun _ => o.

(** A transport that fails once, then serves [ok_both]. *)
Definition flaky : nat -> Outcome :=
  fun n => match n with
           | 0 => Failed "connection refused"
           | _ => Responded ok_both
           end.

(** A manager holding tokens, before anything was sent. *)
Definition cached : World :=
  {| self := {| csrf_token := Some "abc123";
                quote_token := Some "xyz789";
                _headers_cache := None |};
     sent := [];
     log := [] |}.

End Samples.

(* ===================================================================== *)
(** ** Texts the patterns are run on *)
(* ===================================================================== *)

Module Text.

(** Every character of [s] satisfies [p]. *)
Fixpoint all_chars (p : ascii -> bool) (s : string) : bool :=
  match s with
  | EmptyString => true
  | String a s' => p a && all_chars p s'
  end.

Definition is_quote (a : ascii) : bool := Re.mem a Re.quotes.

(** No quote of either kind in [s]. *)
Definition quote_free (s : string) : bool :=
  all_chars (fun a => negb (is_quote a)) s.

(** Only white space in [s]. *)
Definition blank (s : string) : bool := all_chars Re.isspace s.

(** The common shape of the two patterns, [key[_-]?token] followed by
    the quoted value. *)
Definition keyed (key : string) : Re.re :=
  Re.Seq (Re.lit key)
 (Re.Seq (Re.Opt (Re.Chars ["_"; "-"]%char))
 (Re.Seq (Re.lit "token") Re.quoted_value)).

(** A key and its value written the way the patterns read them: the key
    with its separator, a closing quote, a colon or an equals sign with
    white space around it, and the value between quotes. *)
Definition entry (key sep : string) (q1 : ascii) (ws1 : string) (d : ascii)
    (ws2 : string) (q2 : ascii) (v : string) (q3 : ascii) : string :=
  key ++ sep ++ "token"
  ++ String q1 (ws1 ++ String d (ws2 ++ String q2 (v ++ String q3 ""))).

End Text.

(** An equation between closed terms, by evaluating both sides. *)
Ltac vm_refl :=
  match goal with
  | |- ?a = ?b => exact (@eq_refl _ a <: a = b)
  end.

(* ===================================================================== *)
(** ** Facts about matching *)
(* ===================================================================== *)

Module ReFacts.
Import Re.

Lemma repeat_greedy_sound {A} c g (k : string -> option A) s x :
  repeat_greedy c s k = Some x ->
  exists s', matches (Star c) s g s' g /\ k s' = Some x.
Proof.
  induction s as [|a s IH]; simpl; intros H.
  - exists ""; split; [constructor | exact H].
  - destruct (cset_mem a c) eqn:Ha.
    + destruct (repeat_greedy c s k) as [y|] eqn:Hr.
      * inversion H; subst y. destruct (IH eq_refl) as (s' & Hm & Hk).
        exists s'; split; [ by apply M_Star_more | exact Hk ].
      * exists (String a s); split; [constructor | exact H].
    + exists (String a s); split; [constructor | exact H].
Qed.

(** Whatever the matcher finds is a match, and the rest of the pattern
    accepted what it left. *)
Lemma m_sound {A} r : forall s g (k : string -> option string -> option A) x,
  m r s g k = Some x ->
  exists s' g', matches r s g s' g' /\ k s' g' = Some x.
Proof.
  induction r as [|c|c|c|c|r IH|r1 IH1 r2 IH2]; intros s g k x H; simpl in H.
  - exists s, g; split; [constructor | exact H].
  - destruct s as [|a s]; [discriminate|].
    destruct (cset_mem a c) eqn:Ha; [|discriminate].
    exists s, g; split; [by constructor | exact H].
  - destruct s as [|a s].
    + exists "", g; split; [constructor | exact H].
    + destruct (cset_mem a c) eqn:Ha.
      * destruct (k s g) as [y|] eqn:Hk.
        -- exists s, g; split; [by apply M_Opt_take | congruence].
        -- exists (String a s), g; split; [constructor | exact H].
      * exists (String a s), g; split; [constructor | exact H].
  - destruct (repeat_greedy_sound c g _ _ _ H) as (s' & Hm & Hk).
    by exists s', g.
  - destruct s as [|a s]; [discriminate|].
    destruct (cset_mem a c) eqn:Ha; [|discriminate].
    destruct (repeat_greedy_sound c g _ _ _ H) as (s' & Hm & Hk).
    exists s', g; split; [by apply M_Plus | exact Hk].
  - destruct (IH _ _ _ _ H) as (s' & g' & Hm & Hk).
    exists s', (Some (consumed s s')); split; [by econstructor | exact Hk].
  - destruct (IH1 _ _ _ _ H) as (s1 & g1 & Hm1 & Hk1).
    destruct (IH2 _ _ _ _ Hk1) as (s2 & g2 & Hm2 & Hk2).
    exists s2, g2; split; [by econstructor | exact Hk2].
Qed.

Lemma repeat_greedy_complete {A} c g g' (k : string -> option A) s s' :
  matches (Star c) s g s' g' -> is_Some (k s') ->
  is_Some (repeat_greedy c s k).
Proof.
  intros Hm Hk. remember (Star c) as r eqn:Hr.
  induction Hm; inversion Hr; subst.
  - destruct s as [|a s]; simpl; [exact Hk|].
    destruct (cset_mem a c); [|exact Hk].
    destruct (repeat_greedy c s k); [by eexists | exact Hk].
  - simpl. rewrite H.
    destruct (IHHm eq_refl Hk) as [y ->]. by eexists.
Qed.

(** Whenever the pattern has a match that the rest of the pattern
    accepts, the matcher finds one (maybe another). *)
Lemma m_complete {A} r s g s' g' :
  matches r s g s' g' ->
  forall k : string -> option string -> option A,
    is_Some (k s' g') -> is_Some (m r s g k).
Proof.
  induction 1 as [s g|c a s g Ha|c s g|c a s g Ha|c s g|c a s s' g Ha Hm IH
                 |c a s s' g Ha Hm IH|r s g s' g' Hm IH
                 |r1 r2 s g s1 g1 s2 g2 Hm1 IH1 Hm2 IH2];
    intros k Hk; simpl.
  - exact Hk.
  - by rewrite Ha.
  - destruct s as [|a s]; [exact Hk|].
    destruct (cset_mem a c); [|exact Hk].
    destruct (k s g); [by eexists | exact Hk].
  - rewrite Ha. destruct Hk as [y ->]. by eexists.
  - apply (repeat_greedy_complete c g g _ s s); [constructor | exact Hk].
  - rewrite Ha. destruct (IH k Hk) as [y Hy]. simpl in Hy. rewrite Hy.
    by eexists.
  - rewrite Ha. by apply (repeat_greedy_complete c g g _ s s').
  - by apply IH.
  - apply IH1. by apply IH2.
Qed.

Lemma match_at_sound r s mt :
  match_at r s = Some mt -> exists s', matches r s None s' (group_1 mt).
Proof.
  unfold match_at. intros H.
  destruct (m_sound _ _ _ _ _ H) as (s' & g' & Hm & Hk).
  exists s'. by inversion Hk.
Qed.

Lemma match_at_complete r s s' g :
  matches r s None s' g -> is_Some (match_at r s).
Proof. intros Hm. by eapply m_complete. Qed.

(** [search] returns a match of the pattern at some position. *)
Lemma search_sound r s mt :
  search r s = Some mt ->
  exists pre rest s', s = pre ++ rest /\ matches r rest None s' (group_1 mt).
Proof.
  induction s as [|a s IH]; simpl; intros H.
  - destruct (match_at r "") as [mt'|] eqn:Hm; [|discriminate].
    inversion H; subst. destruct (match_at_sound _ _ _ Hm) as [s' Hs'].
    by exists "", "", s'.
  - destruct (match_at r (String a s)) as [mt'|] eqn:Hm.
    + inversion H; subst. destruct (match_at_sound _ _ _ Hm) as [s' Hs'].
      by exists "", (String a s), s'.
    + destruct (IH H) as (pre & rest & s' & -> & Hs').
      by exists (String a pre), rest, s'.
Qed.

(** [search] finds nothing exactly when the pattern occurs nowhere. *)
Lemma search_None r s : search r s = None <-> ~ occurs r s.
Proof.
  split.
  - intros H (pre & rest & s' & g & -> & Hm).
    induction pre as [|a pre IH]; simpl in H.
    + destruct (match_at_complete _ _ _ _ Hm) as [mt Hmt].
      destruct rest; simpl in H; rewrite Hmt in H; discriminate.
    + destruct (match_at r (String a (pre ++ rest))); [discriminate|].
      by apply IH.
  - intros H. destruct (search r s) as [mt|] eqn:Hs; [|done].
    exfalso. apply H. destruct (search_sound _ _ _ Hs) as (pre & rest & s' & ? & ?).
    by exists pre, rest, s', (group_1 mt).
Qed.

Lemma search_Some r s : is_Some (search r s) <-> occurs r s.
Proof.
  split.
  - intros [mt Hs]. destruct (search_sound _ _ _ Hs) as (pre & rest & s' & ? & ?).
    by exists pre, rest, s', (group_1 mt).
  - intros Ho. destruct (search r s) eqn:Hs; [by eexists|].
    by apply search_None in Hs.
Qed.

(** *** What group 1 holds *)

Lemma matches_length r s g s' g' :
  matches r s g s' g' -> String.length s' <= String.length s.
Proof. induction 1; simpl in *; lia. Qed.

Lemma consumed_nonempty s s' :
  String.length s' < String.length s -> consumed s s' <> "".
Proof.
  unfold consumed. intros H.
  destruct (String.length s - String.length s') as [|n] eqn:Hn; [lia|].
  destruct s as [|a s]; [simpl in H; lia|]. simpl. discriminate.
Qed.

Lemma captures_group_plus c : captures (Group (Plus c)).
Proof.
  intros s g s' g' H. inversion H as [| | | | | | |r0 s0 g0 s0' g0' Hm|]; subst.
  eexists; split; [reflexivity|]. apply consumed_nonempty.
  inversion Hm as [| | | | | |c0 a s0 s0' g0 Ha Hstar| |]; subst.
  apply matches_length in Hstar. simpl. lia.
Qed.

Lemma transparent_one c : transparent (One c).
Proof. intros s g s' g' H. by inversion H. Qed.

Lemma captures_seq_l r1 r2 : captures r1 -> transparent r2 -> captures (Seq r1 r2).
Proof.
  intros H1 H2 s g s' g' H.
  inversion H as [| | | | | | | |p1 p2 s0 g0 s1 g1 s2 g2 Hm1 Hm2]; subst.
  destruct (H1 _ _ _ _ Hm1) as (v & -> & Hv).
  rewrite (H2 _ _ _ _ Hm2). by exists v.
Qed.

Lemma captures_seq_r r1 r2 : captures r2 -> captures (Seq r1 r2).
Proof.
  intros H2 s g s' g' H.
  inversion H as [| | | | | | | |p1 p2 s0 g0 s1 g1 s2 g2 Hm1 Hm2]; subst.
  by eapply H2.
Qed.

Lemma captures_quoted_value : captures quoted_value.
Proof.
  unfold quoted_value. do 5 apply captures_seq_r.
  apply captures_seq_l; [apply captures_group_plus | apply transparent_one].
Qed.

Lemma captures_csrf_re : captures csrf_re.
Proof. unfold csrf_re. do 3 apply captures_seq_r. apply captures_quoted_value. Qed.

Lemma captures_quote_re : captures quote_re.
Proof. unfold quote_re. do 3 apply captures_seq_r. apply captures_quoted_value. Qed.

(** A successful [search] for a capturing pattern has a non-empty
    [group(1)]. *)
Lemma search_group r s mt :
  captures r -> search r s = Some mt ->
  exists v, group_1 mt = Some v /\ v <> "".
Proof.
  intros Hc Hs. destruct (search_sound _ _ _ Hs) as (pre & rest & s' & _ & Hm).
  by eapply Hc.
Qed.

End ReFacts.

(* ===================================================================== *)
(** ** Facts about the conversions and about running coroutines *)
(* ===================================================================== *)

Module PyFacts.
Import Py.

Lemma to_int_not_nil (n : Z) :
  Z.to_int n <> Decimal.Pos Decimal.Nil /\ Z.to_int n <> Decimal.Neg Decimal.Nil.
Proof.
  destruct n as [|p|p]; simpl; split; try discriminate;
    intros H; injection H; apply DecimalPos.Unsigned.to_uint_nonnil.
Qed.

(** [str] of an [int] tells the [int]. *)
Lemma str_int_inj (a b : Z) : str_int a = str_int b -> a = b.
Proof.
  unfold str_int. intros H. apply DecimalZ.to_int_inj.
  destruct (to_int_not_nil a) as [Ha1 Ha2], (to_int_not_nil b) as [Hb1 Hb2].
  pose proof (NilZero.isi _ Ha1 Ha2) as Ea.
  pose proof (NilZero.isi _ Hb1 Hb2) as Eb.
  rewrite H in Ea. congruence.
Qed.

Lemma append_cancel (p x y : string) : p ++ x = p ++ y -> x = y.
Proof. induction p as [|a p IH]; simpl; [done|]. intros H. apply IH. by inversion H. Qed.

Lemma truthy_Some (v : option string) :
  truthy v = true <-> exists s, v = Some s /\ s <> "".
Proof.
  split.
  - destruct v as [[|a s]|]; try discriminate. intros _. by eexists.
  - intros (s & -> & Hs). by destruct s.
Qed.

Lemma or_str_nonempty (s : string) : s <> "" -> or_str (Some s) "" = s.
Proof. by destruct s. Qed.

End PyFacts.

Module CoroFacts.
Import httpx Coro.

Lemma run_bind {A B} client (p : coro A) (f : A -> coro B) w :
  run client (p ≫= f) w =
  match run client p w with
  | (Returned a, w') => run client (f a) w'
  | (Raised e, w') => (Raised e, w')
  end.
Proof.
  change (p ≫= f) with (bind p f).
  revert w; induction p as [a|e|k IH|g k IH|lvl msg k IH|rq k IH];
    intros w; simpl; auto.
Qed.

Lemma run_try_except {A} client (body : coro A) handler w :
  run client (try_except body handler) w =
  match run client body w with
  | (Returned a, w') => (Returned a, w')
  | (Raised e, w') =>
      match handler e with
      | Some h => run client h w'
      | None => (Raised e, w')
      end
  end.
Proof.
  revert w; induction body as [a|e|k IH|g k IH|lvl msg k IH|rq k IH];
    intros w; simpl; auto.
  by destruct (handler e).
Qed.

(** A coroutine only ever adds to the requests sent. *)
Lemma run_sent_grows {A} client (p : coro A) w :
  exists more, sent (run client p w).2 = (sent w ++ more)%list.
Proof.
  revert w; induction p as [a|e|k IH|g k IH|lvl msg k IH|rq k IH];
    intros w; simpl.
  - exists []. by rewrite app_nil_r.
  - exists []. by rewrite app_nil_r.
  - apply IH.
  - destruct (IH (with_self g w)) as [more ->]. by exists more.
  - destruct (IH (with_log lvl msg w)) as [more ->]. by exists more.
  - destruct (IH (client (length (sent w))) (with_sent rq w)) as [more ->].
    exists (rq :: more). simpl. by rewrite <- app_assoc.
Qed.

(** Running a caller alone is starting it and ending each of its round
    trips the way the transport says. *)
Lemma run_advance {A} client (p : coro A) w :
  run client p w =
  match advance p w with
  | (Suspended rq k, w') => run client (k (client (length (sent w)))) w'
  | (Finished r, w') => (r, w')
  | (Pending q, w') => run client q w'
  end.
Proof.
  revert w; induction p as [a|e|k IH|g k IH|lvl msg k IH|rq k IH];
    intros w; simpl; auto.
  - exact (IH (with_self g w)).
  - exact (IH (with_log lvl msg w)).
Qed.

Lemma advance_bind {A B} (p : coro A) (f : A -> coro B) w :
  advance (p ≫= f) w =
  match advance p w with
  | (Finished (Returned a), w') => advance (f a) w'
  | (Finished (Raised e), w') => (Finished (Raised e), w')
  | (Suspended rq k, w') => (Suspended rq (fun o => k o ≫= f), w')
  | (Pending q, w') => (Pending (q ≫= f), w')
  end.
Proof.
  change (p ≫= f) with (bind p f).
  revert w; induction p as [a|e|k IH|g k IH|lvl msg k IH|rq k IH];
    intros w; simpl; auto.
Qed.

Lemma advance_try_except {A} (body : coro A) handler w :
  advance (try_except body handler) w =
  match advance body w with
  | (Finished (Returned a), w') => (Finished (Returned a), w')
  | (Finished (Raised e), w') =>
      match handler e with
      | Some h => advance h w'
      | None => (Finished (Raised e), w')
      end
  | (Suspended rq k, w') => (Suspended rq (fun o => try_except (k o) handler), w')
  | (Pending q, w') => (Pending (try_except q handler), w')
  end.
Proof.
  revert w; induction body as [a|e|k IH|g k IH|lvl msg k IH|rq k IH];
    intros w; simpl; auto.
  by destruct (handler e).
Qed.

(** A coroutine that never awaits runs to its end in one go. *)
Lemma sync_advance {A} client (p : coro A) w :
  sync p ->
  advance p w = (Finished (run client p w).1, (run client p w).2).
Proof.
  revert w; induction p as [a|e|k IH|g k IH|lvl msg k IH|rq k IH];
    intros w Hs; simpl in *; auto. done.
Qed.

(** *** Counting tasks *)

Lemma count_insert {A} (f : Task A -> bool) (ts : list (Task A)) i t0 t :
  ts !! i = Some t0 ->
  length (filter (fun t => f t = true) (<[i := t]> ts)) + Nat.b2n (f t0)
  = length (filter (fun t => f t = true) ts) + Nat.b2n (f t).
Proof.
  revert i; induction ts as [|t1 ts IH]; intros [|i] Hi; try done.
  - simpl in Hi. inversion Hi; subst t1. simpl.
    rewrite !filter_cons. destruct (f t0), (f t); simpl;
      repeat case_decide; simpl; try done; lia.
  - simpl in Hi. specialize (IH i Hi). simpl.
    rewrite !filter_cons. case_decide; simpl; lia.
Qed.

End CoroFacts.

(* ===================================================================== *)
(** ** The methods of the manager, one outcome at a time *)
(* ===================================================================== *)

Section Methods.
Import httpx Coro CoroFacts.

Variable STOCK_LIST_PAGE : string.

Local Abbreviation _extract_csrf_token := Token._extract_csrf_token.
Local Abbreviation _extract_quote_token := Token._extract_quote_token.
Local Abbreviation page_request := (Token.page_request STOCK_LIST_PAGE).
Local Abbreviation _fetch_tokens := (Token._fetch_tokens STOCK_LIST_PAGE).
Local Abbreviation _build_headers := (Token._build_headers STOCK_LIST_PAGE).
Local Abbreviation get_tokens := (Token.get_tokens STOCK_LIST_PAGE).
Local Abbreviation refresh_tokens := (Token.refresh_tokens STOCK_LIST_PAGE).
Local Abbreviation invalidate := Token.invalidate.
Local Abbreviation reachable := (Token.reachable STOCK_LIST_PAGE).
Local Abbreviation Unauthenticated := Token.Unauthenticated.
Local Abbreviation Authenticated := Token.Authenticated.
Local Abbreviation both_or_neither := Token.both_or_neither.
Local Abbreviation well_formed := Token.well_formed.

Implicit Types (client : nat -> Outcome) (w : World) (r : Response).

(** *** Extraction *)

Lemma extract_csrf_header client r ck w v :
  headers r !! "x-csrf-token" = Some v -> v <> "" ->
  run client (_extract_csrf_token r ck) w = (Returned (Some v), w).
Proof.
  intros Hh Hv. unfold Token._extract_csrf_token. rewrite Hh.
  destruct v as [|a v]; [done|]. reflexivity.
Qed.

Lemma extract_csrf_body client r ck w mt :
  Py.truthy (headers r !! "x-csrf-token") = false ->
  Re.search Re.csrf_re (text r) = Some mt ->
  run client (_extract_csrf_token r ck) w = (Returned (Re.group_1 mt), w).
Proof.
  intros Hh Hs. unfold Token._extract_csrf_token. by rewrite Hh, Hs.
Qed.

Lemma extract_csrf_fallback client r ck w :
  Py.truthy (headers r !! "x-csrf-token") = false ->
  Re.search Re.csrf_re (text r) = None ->
  run client (_extract_csrf_token r ck) w =
  (Returned (Some "iwtmChEzi0ixw18P983l5ai7"),
   with_log WARNING "Could not extract CSRF token, using fallback" w).
Proof.
  intros Hh Hs. unfold Token._extract_csrf_token. by rewrite Hh, Hs.
Qed.

Lemma extract_quote_body client r ck w mt :
  Re.search Re.quote_re (text r) = Some mt ->
  run client (_extract_quote_token r ck) w = (Returned (Re.group_1 mt), w).
Proof. intros Hs. unfold Token._extract_quote_token. by rewrite Hs. Qed.

Lemma extract_quote_fallback client r ck w :
  Re.search Re.quote_re (text r) = None ->
  run client (_extract_quote_token r ck) w =
  (Returned (Some "99227e34c9"),
   with_log WARNING "Could not extract quote token, using fallback" w).
Proof. intros Hs. unfold Token._extract_quote_token. by rewrite Hs. Qed.

(** Extraction always returns a non-empty string, and touches neither
    the manager nor the transport. *)
Lemma extract_csrf_ok client r ck w :
  exists v w',
    run client (_extract_csrf_token r ck) w = (Returned (Some v), w')
    /\ v <> "" /\ self w' = self w /\ sent w' = sent w.
Proof.
  destruct (Py.truthy (headers r !! "x-csrf-token")) eqn:Hh.
  - apply PyFacts.truthy_Some in Hh as (v & Hv & Hne).
    exists v, w. by rewrite (extract_csrf_header _ _ _ _ _ Hv Hne).
  - destruct (Re.search Re.csrf_re (text r)) as [mt|] eqn:Hs.
    + destruct (ReFacts.search_group _ _ _ ReFacts.captures_csrf_re Hs)
        as (v & Hg & Hne).
      exists v, w. by rewrite (extract_csrf_body _ _ _ _ _ Hh Hs), Hg.
    + eexists _, _. by rewrite (extract_csrf_fallback _ _ _ _ Hh Hs).
Qed.

Lemma extract_quote_ok client r ck w :
  exists v w',
    run client (_extract_quote_token r ck) w = (Returned (Some v), w')
    /\ v <> "" /\ self w' = self w /\ sent w' = sent w.
Proof.
  destruct (Re.search Re.quote_re (text r)) as [mt|] eqn:Hs.
  - destruct (ReFacts.search_group _ _ _ ReFacts.captures_quote_re Hs)
      as (v & Hg & Hne).
    exists v, w. by rewrite (extract_quote_body _ _ _ _ _ Hs), Hg.
  - eexists _, _. by rewrite (extract_quote_fallback _ _ _ _ Hs).
Qed.

(** What extraction returns depends on the response alone. *)
Lemma extract_csrf_value client client' r ck w w' :
  (run client (_extract_csrf_token r ck) w).1
  = (run client' (_extract_csrf_token r ck) w').1.
Proof.
  unfold Token._extract_csrf_token.
  destruct (Py.truthy _); [done|]. by destruct (Re.search _ _).
Qed.

Lemma extract_quote_value client client' r ck w w' :
  (run client (_extract_quote_token r ck) w).1
  = (run client' (_extract_quote_token r ck) w').1.
Proof. unfold Token._extract_quote_token. by destruct (Re.search _ _). Qed.

(** *** The fetch *)

(** The world once the request is out. *)
Local Abbreviation requested w :=
  (with_sent page_request
     (with_log INFO "Fetching authentication tokens from Futunn" w)).

Lemma fetch_network_error client w msg :
  client (length (sent w)) = Failed msg ->
  run client _fetch_tokens w =
  (Raised (TokenExpiredError ("Network error: " ++ msg)),
   with_log ERROR ("Network error while fetching tokens: " ++ msg) (requested w)).
Proof.
  intros Hc. unfold Token._fetch_tokens. simpl. by rewrite Hc.
Qed.

Lemma fetch_bad_status client w r :
  client (length (sent w)) = Responded r -> status_code r <> 200%Z ->
  run client _fetch_tokens w =
  (Raised (TokenExpiredError
             ("Failed to fetch tokens: HTTP " ++ Py.str_int (status_code r))),
   requested w).
Proof.
  intros Hc Hst. unfold Token._fetch_tokens. simpl. rewrite Hc. simpl.
  apply Z.eqb_neq in Hst. by rewrite Hst.
Qed.

Lemma fetch_ok client w r :
  client (length (sent w)) = Responded r -> status_code r = 200%Z ->
  exists c q w',
    run client _fetch_tokens w = (Returned tt, w')
    /\ self w' = set_quote_token (Some q) (set_csrf_token (Some c) (self w))
    /\ c <> "" /\ q <> ""
    /\ sent w' = (sent w ++ [page_request])%list
    /\ (forall cl w0, (run cl (_extract_csrf_token r (cookies r)) w0).1
                      = Returned (Some c))
    /\ (forall cl w0, (run cl (_extract_quote_token r (cookies r)) w0).1
                      = Returned (Some q)).
Proof.
  intros Hc Hst.
  destruct (extract_csrf_ok client r (cookies r) (requested w))
    as (c & w1 & Hr1 & Hc1 & Hs1 & Ht1).
  destruct (extract_quote_ok client r (cookies r)
              (with_self (set_csrf_token (Some c)) w1))
    as (q & w2 & Hr2 & Hc2 & Hs2 & Ht2).
  exists c, q. eexists. split; [|split; [|split; [|split; [|split; [|split]]]]].
  - unfold Token._fetch_tokens. rewrite run_try_except.
    simpl. rewrite Hc. simpl. rewrite Hst. simpl.
    rewrite run_bind, Hr1. simpl.
    rewrite run_bind, Hr2. simpl. reflexivity.
  - simpl. rewrite Hs2. simpl. rewrite Hs1. reflexivity.
  - exact Hc1.
  - exact Hc2.
  - simpl. rewrite Ht2. simpl. rewrite Ht1. reflexivity.
  - intros cl w0.
    by rewrite (extract_csrf_value cl client r (cookies r) w0 (requested w)), Hr1.
  - intros cl w0.
    by rewrite (extract_quote_value cl client r (cookies r) w0
                  (with_self (set_csrf_token (Some c)) w1)), Hr2.
Qed.

(** *** The public calls *)

(** The world [refresh_tokens] hands to [get_tokens]. *)
Local Abbreviation cleared w :=
  (with_self (set_quote_token None)
     (with_self (set_csrf_token None)
        (with_log INFO "Refreshing authentication tokens" w))).

Lemma get_tokens_cached client w c q :
  csrf_token (self w) = Some c -> quote_token (self w) = Some q ->
  run client get_tokens w = (Returned (_build_headers (self w)), w).
Proof.
  intros Hc Hq. unfold Token.get_tokens. simpl. by rewrite Hc, Hq.
Qed.

Lemma get_tokens_fetches client w :
  csrf_token (self w) = None \/ quote_token (self w) = None ->
  run client get_tokens w =
  match run client _fetch_tokens w with
  | (Returned _, w') => (Returned (_build_headers (self w')), w')
  | (Raised e, w') => (Raised e, w')
  end.
Proof.
  intros Hn. unfold Token.get_tokens. rewrite run_bind.
  change (run client get_self w) with (Returned (self w), w). cbv beta iota.
  assert (Py.is_None (csrf_token (self w)) || Py.is_None (quote_token (self w))
          = true) as ->.
  { destruct Hn as [-> | ->]; [done|]. by destruct (csrf_token (self w)). }
  rewrite run_bind. by destruct (run client _fetch_tokens w) as [[[]|e] w'].
Qed.

Lemma refresh_tokens_unfold client w :
  run client refresh_tokens w = run client get_tokens (cleared w).
Proof. reflexivity. Qed.

Lemma missing_or_cached (s : TokenManager) :
  (csrf_token s = None \/ quote_token s = None)
  \/ (exists c q, csrf_token s = Some c /\ quote_token s = Some q).
Proof.
  destruct (csrf_token s) as [c|]; [|by left; left].
  destruct (quote_token s) as [q|]; [|by left; right].
  right. by exists c, q.
Qed.

(** A call that ends normally returns the headers of the manager it
    leaves behind, and leaves it with two non-empty tokens when it
    fetched. *)
Lemma get_tokens_returned client w h w' :
  run client get_tokens w = (Returned h, w') ->
  h = _build_headers (self w')
  /\ ((exists c q, csrf_token (self w) = Some c /\ quote_token (self w) = Some q)
      /\ w' = w
      \/ (csrf_token (self w) = None \/ quote_token (self w) = None)
         /\ exists r c q,
             client (length (sent w)) = Responded r
             /\ status_code r = 200%Z
             /\ self w' = set_quote_token (Some q) (set_csrf_token (Some c) (self w))
             /\ c <> "" /\ q <> ""
             /\ sent w' = (sent w ++ [page_request])%list
             /\ (forall cl w0, (run cl (_extract_csrf_token r (cookies r)) w0).1
                               = Returned (Some c))
             /\ (forall cl w0, (run cl (_extract_quote_token r (cookies r)) w0).1
                               = Returned (Some q))).
Proof.
  intros Hrun. destruct (missing_or_cached (self w)) as [Hn | (c & q & Hc & Hq)].
  - rewrite (get_tokens_fetches _ _ Hn) in Hrun.
    destruct (client (length (sent w))) as [r|msg] eqn:Ho.
    + destruct (Z.eq_dec (status_code r) 200%Z) as [Hst|Hst].
      * destruct (fetch_ok _ _ _ Ho Hst)
          as (c & q & w1 & Hf & Hs & Hc & Hq & Ht & Hvc & Hvq).
        rewrite Hf in Hrun. inversion Hrun; subst h w1.
        split; [done|]. right. split; [done|]. by exists r, c, q.
      * by rewrite (fetch_bad_status _ _ _ Ho Hst) in Hrun.
    + by rewrite (fetch_network_error _ _ _ Ho) in Hrun.
  - rewrite (get_tokens_cached _ _ _ _ Hc Hq) in Hrun.
    inversion Hrun; subst h w'. split; [done|]. left. split; [|done].
    by exists c, q.
Qed.

(** A call that raises made one round trip and left the manager as it
    found it. *)
Lemma get_tokens_raised client w e w' :
  run client get_tokens w = (Raised e, w') ->
  self w' = self w /\ sent w' = (sent w ++ [page_request])%list.
Proof.
  intros Hrun. destruct (missing_or_cached (self w)) as [Hn | (c & q & Hc & Hq)].
  - rewrite (get_tokens_fetches _ _ Hn) in Hrun.
    destruct (client (length (sent w))) as [r|msg] eqn:Ho.
    + destruct (Z.eq_dec (status_code r) 200%Z) as [Hst|Hst].
      * destruct (fetch_ok _ _ _ Ho Hst) as (c & q & w1 & Hf & _).
        by rewrite Hf in Hrun.
      * rewrite (fetch_bad_status _ _ _ Ho Hst) in Hrun.
        by inversion Hrun; subst.
    + rewrite (fetch_network_error _ _ _ Ho) in Hrun.
      by inversion Hrun; subst.
  - by rewrite (get_tokens_cached _ _ _ _ Hc Hq) in Hrun.
Qed.

Lemma invalidate_run client w :
  run client invalidate w =
  (Returned tt,
   with_self (set_headers_cache None)
     (with_self (set_quote_token None)
        (with_self (set_csrf_token None)
           (with_log INFO "Invalidating cached tokens" w)))).
Proof. reflexivity. Qed.

(** *** What sequential use maintains *)

Lemma well_formed_init : well_formed Token.__init__.
Proof. repeat split; try done. by left. Qed.

Lemma well_formed_set_both c q s :
  c <> "" -> q <> "" -> _headers_cache s = None ->
  well_formed (set_quote_token (Some q) (set_csrf_token (Some c) s)).
Proof.
  intros Hc Hq Hh. repeat split; simpl; try congruence.
  right. split; by eexists.
Qed.

Lemma well_formed_clear s :
  _headers_cache s = None ->
  well_formed (set_quote_token None (set_csrf_token None s)).
Proof. intros Hh. repeat split; simpl; try done. by left. Qed.

Lemma get_tokens_well_formed client w :
  well_formed (self w) -> well_formed (self (run client get_tokens w).2).
Proof.
  intros Hwf. destruct (run client get_tokens w) as [[h|e] w'] eqn:Hrun; simpl.
  - apply get_tokens_returned in Hrun as [_ [[_ ->] | [_ Hf]]]; [done|].
    destruct Hf as (r & c & q & _ & _ & -> & Hc & Hq & _).
    apply well_formed_set_both; try done. apply Hwf.
  - apply get_tokens_raised in Hrun as [-> _]. exact Hwf.
Qed.

Lemma refresh_tokens_well_formed client w :
  _headers_cache (self w) = None ->
  well_formed (self (run client refresh_tokens w).2).
Proof.
  intros Hh. rewrite refresh_tokens_unfold.
  apply get_tokens_well_formed. simpl. by apply well_formed_clear.
Qed.

Lemma run_drop_result {A} client (p : coro A) w :
  (run client (p ;; mret tt) w).2 = (run client p w).2.
Proof. rewrite run_bind. by destruct (run client p w) as [[a|e] w']. Qed.

Lemma call_well_formed client c w :
  well_formed (self w) ->
  well_formed (self (run client (Token.call STOCK_LIST_PAGE c) w).2).
Proof.
  intros Hwf. destruct c.
  - change (Token.call _ _) with (get_tokens ;; mret tt).
    rewrite run_drop_result. by apply get_tokens_well_formed.
  - change (Token.call _ _) with (refresh_tokens ;; mret tt).
    rewrite run_drop_result. apply refresh_tokens_well_formed, Hwf.
  - change (Token.call _ _) with invalidate. rewrite invalidate_run. simpl. repeat split; try done. by left.
Qed.

Lemma reachable_well_formed client w :
  reachable client w -> well_formed (self w).
Proof.
  induction 1 as [|c w Hr IH]; [apply well_formed_init|].
  by apply call_well_formed.
Qed.

(* =================================================================== *)
(** ** The properties of the specification *)
(* =================================================================== *)

(** C1. Both-or-neither: whatever way the round trips end (a 200
    response, another status, a network error, a body without any
    token), a manager in use has both tokens or none after
    [get_tokens] and after [refresh_tokens], whether they return or
    raise. *)
Theorem tokens_both_or_neither client w :
  reachable client w ->
  both_or_neither (self (run client get_tokens w).2)
  /\ both_or_neither (self (run client refresh_tokens w).2).
Proof.
  intros Hr. apply reachable_well_formed in Hr. split.
  - by apply get_tokens_well_formed.
  - apply refresh_tokens_well_formed, Hr.
Qed.

(** C2. A failed fetch (a status other than 200, or a network error)
    makes [get_tokens] and [refresh_tokens] raise the acquisition
    error, [TokenExpiredError] in the code, whose message holds the
    status code in the first case; exactly one request went out, and
    the manager is left without tokens. *)
Theorem fetch_failure_raises client w e :
  (exists msg, client (length (sent w)) = Failed msg
               /\ e = TokenExpiredError ("Network error: " ++ msg))
  \/ (exists r, client (length (sent w)) = Responded r
                /\ status_code r <> 200%Z
                /\ e = TokenExpiredError
                         ("Failed to fetch tokens: HTTP "
                          ++ Py.str_int (status_code r))) ->
  (Unauthenticated (self w) ->
     exists w', run client get_tokens w = (Raised e, w')
                /\ self w' = self w
                /\ sent w' = (sent w ++ [page_request])%list)
  /\ (exists w', run client refresh_tokens w = (Raised e, w')
                 /\ self w' = set_quote_token None (set_csrf_token None (self w))
                 /\ Unauthenticated (self w')
                 /\ sent w' = (sent w ++ [page_request])%list)
  /\ (forall a b : Z,
        "Failed to fetch tokens: HTTP " ++ Py.str_int a
        = "Failed to fetch tokens: HTTP " ++ Py.str_int b -> a = b).
Proof.
  intros Hfail.
  assert (forall w0, length (sent w0) = length (sent w) ->
            exists w', run client _fetch_tokens w0 = (Raised e, w')
                       /\ self w' = self w0
                       /\ sent w' = (sent w0 ++ [page_request])%list) as Hfetch.
  { intros w0 Hlen. destruct Hfail as [(msg & Ho & ->) | (r & Ho & Hst & ->)];
      rewrite <- Hlen in Ho.
    - rewrite (fetch_network_error _ _ _ Ho). by eexists.
    - rewrite (fetch_bad_status _ _ _ Ho Hst). by eexists. }
  split; [|split].
  - intros [Hc Hq]. rewrite get_tokens_fetches by by left.
    destruct (Hfetch w eq_refl) as (w' & -> & Hs & Ht). by exists w'.
  - rewrite refresh_tokens_unfold, get_tokens_fetches by by left.
    destruct (Hfetch (cleared w) eq_refl) as (w' & -> & Hs & Ht).
    exists w'. rewrite Hs. by repeat split.
  - intros a b Hab. apply PyFacts.str_int_inj.
    by apply PyFacts.append_cancel in Hab.
Qed.

(** C3, as amended. Two calls of [get_tokens] in a row, the first of
    which returns, make at most one fetch: one when a token was missing
    at the start, none when both were there. The second call sends
    nothing and returns the headers of the first. *)
Theorem get_tokens_twice client w h1 w1 :
  run client get_tokens w = (Returned h1, w1) ->
  run client get_tokens w1 = (Returned h1, w1)
  /\ (Authenticated (self w) -> fetches w w1 = 0)
  /\ (csrf_token (self w) = None \/ quote_token (self w) = None ->
      fetches w w1 = 1).
Proof.
  intros Hrun. apply get_tokens_returned in Hrun as [-> Hcase].
  destruct Hcase as [[(c & q & Hc & Hq) ->] | [Hn Hf]].
  - split; [by eapply get_tokens_cached|]. split.
    + intros _. unfold fetches. lia.
    + intros [H|H]; congruence.
  - destruct Hf as (r & c & q & _ & _ & Hs & _ & _ & Ht & _).
    split; [|split].
    + apply (get_tokens_cached _ _ c q); by rewrite Hs.
    + intros [[c' Hc'] [q' Hq']]. destruct Hn; congruence.
    + intros _. unfold fetches. rewrite Ht, length_app. simpl. lia.
Qed.

(** C4, as amended. The CSRF token is the response header when the
    header is there with a non-empty value, whatever the body holds;
    with the header absent or empty it is the value the body pattern
    captures; with no pattern in the body either it is the fallback
    constant, and a warning is logged. *)
Theorem csrf_extraction_priority client r ck w :
  (forall v, headers r !! "x-csrf-token" = Some v -> v <> "" ->
     run client (_extract_csrf_token r ck) w = (Returned (Some v), w))
  /\ (headers r !! "x-csrf-token" = None \/ headers r !! "x-csrf-token" = Some "" ->
      (Re.occurs Re.csrf_re (text r) ->
         exists mt, Re.search Re.csrf_re (text r) = Some mt
                    /\ run client (_extract_csrf_token r ck) w
                       = (Returned (Re.group_1 mt), w))
      /\ (~ Re.occurs Re.csrf_re (text r) ->
            run client (_extract_csrf_token r ck) w
            = (Returned (Some "iwtmChEzi0ixw18P983l5ai7"),
               with_log WARNING "Could not extract CSRF token, using fallback" w))).
Proof.
  split; [by apply extract_csrf_header|].
  intros Hh.
  assert (Py.truthy (headers r !! "x-csrf-token") = false) as Hf
    by (by destruct Hh as [-> | ->]).
  split.
  - intros Ho. apply ReFacts.search_Some in Ho as [mt Hs].
    exists mt. split; [done|]. by apply extract_csrf_body.
  - intros Ho. apply ReFacts.search_None in Ho. by apply extract_csrf_fallback.
Qed.

(** C5. A 200 response with no CSRF header and a body holding neither
    pattern makes [get_tokens] return, with the two fallback literals as
    the values of the two token headers. *)
Theorem fallback_on_missing_data client w r :
  csrf_token (self w) = None \/ quote_token (self w) = None ->
  client (length (sent w)) = Responded r ->
  status_code r = 200%Z ->
  headers r !! "x-csrf-token" = None ->
  ~ Re.occurs Re.csrf_re (text r) ->
  ~ Re.occurs Re.quote_re (text r) ->
  exists h w',
    run client get_tokens w = (Returned h, w')
    /\ h !! "futu-x-csrf-token" = Some "iwtmChEzi0ixw18P983l5ai7"
    /\ h !! "quote-token" = Some "99227e34c9".
Proof.
  intros Hn Ho Hst Hh Hc Hq.
  apply ReFacts.search_None in Hc, Hq.
  destruct (fetch_ok _ _ _ Ho Hst) as (c & q & w' & Hf & Hs & _ & _ & _ & Hvc & Hvq).
  specialize (Hvc client w). specialize (Hvq client w).
  rewrite extract_csrf_fallback in Hvc by (by rewrite ?Hh).
  rewrite extract_quote_fallback in Hvq by done.
  simpl in Hvc, Hvq. inversion Hvc; subst c. inversion Hvq; subst q.
  exists (_build_headers (self w')), w'. split.
  - by rewrite get_tokens_fetches, Hf.
  - rewrite Hs. by split.
Qed.

(** C6. [refresh_tokens] clears both tokens and then is [get_tokens]:
    from every world it sends the page request once, and when it
    returns, the tokens it leaves are those extracted from the new
    response and the headers are built from them. *)
Theorem refresh_forces_fetch client w :
  run client refresh_tokens w = run client get_tokens (cleared w)
  /\ Unauthenticated (self (cleared w))
  /\ sent (run client refresh_tokens w).2 = (sent w ++ [page_request])%list
  /\ (forall h w',
        run client refresh_tokens w = (Returned h, w') ->
        exists r c q,
          client (length (sent w)) = Responded r
          /\ status_code r = 200%Z
          /\ (run client (_extract_csrf_token r (cookies r)) w).1 = Returned (Some c)
          /\ (run client (_extract_quote_token r (cookies r)) w).1 = Returned (Some q)
          /\ csrf_token (self w') = Some c
          /\ quote_token (self w') = Some q
          /\ h = _build_headers (self w')).
Proof.
  split; [reflexivity|]. split; [done|]. split.
  - rewrite refresh_tokens_unfold.
    destruct (run client get_tokens (cleared w)) as [[h|e] w'] eqn:Hrun; simpl.
    + apply get_tokens_returned in Hrun as [_ [[(c & q & Hc & _) _] | [_ Hf]]].
      * discriminate Hc.
      * by destruct Hf as (r & c & q & _ & _ & _ & _ & _ & Ht & _).
    + by apply get_tokens_raised in Hrun as [_ Ht].
  - intros h w' Hrun. rewrite refresh_tokens_unfold in Hrun.
    apply get_tokens_returned in Hrun as [-> [[(c & q & Hc & _) _] | [_ Hf]]].
    + discriminate Hc.
    + destruct Hf as (r & c & q & Ho & Hst & Hs & _ & _ & _ & Hvc & Hvq).
      exists r, c, q. rewrite Hs. by repeat split.
Qed.

(** C7. The header map is computed from the two token fields on every
    call: it has exactly the five keys, with the page address as
    referer, the user agent constant and the JSON accept value; a
    token that is not set gives the empty string, not a missing key;
    [_headers_cache] plays no part. *)
Theorem headers_shape (s : TokenManager) :
  let h := _build_headers s in
  dom h = {[ "futu-x-csrf-token"; "quote-token"; "referer"; "user-agent"; "accept" ]}
  /\ size h = 5
  /\ h !! "futu-x-csrf-token" = Some (Py.or_str (csrf_token s) "")
  /\ h !! "quote-token" = Some (Py.or_str (quote_token s) "")
  /\ h !! "referer" = Some STOCK_LIST_PAGE
  /\ h !! "user-agent" = Some constants.DEFAULT_USER_AGENT
  /\ h !! "accept" = Some "application/json, text/plain, */*"
  /\ (csrf_token s = None -> h !! "futu-x-csrf-token" = Some "")
  /\ (quote_token s = None -> h !! "quote-token" = Some "")
  /\ (forall cache, _build_headers (set_headers_cache cache s) = h)
  /\ (forall client w h' w',
        run client get_tokens w = (Returned h', w')
        \/ run client refresh_tokens w = (Returned h', w') ->
        h' = _build_headers (self w')).
Proof.
  assert (dom (_build_headers s)
          = ({[ "futu-x-csrf-token"; "quote-token"; "referer"; "user-agent";
                "accept" ]} : gset string)) as Hdom.
  { unfold Token._build_headers. rewrite !dom_insert_L, dom_empty_L.
    set_solver. }
  cbv zeta. split; [exact Hdom|]. split.
  { rewrite <- size_dom, Hdom. reflexivity. }
  repeat split; try reflexivity.
  - intros H. change (Some (Py.or_str (csrf_token s) "") = Some "").
    by rewrite H.
  - intros H. change (Some (Py.or_str (quote_token s) "") = Some "").
    by rewrite H.
  - intros client w h' w' [Hrun|Hrun].
    + by apply get_tokens_returned in Hrun as [-> _].
    + rewrite refresh_tokens_unfold in Hrun.
      by apply get_tokens_returned in Hrun as [-> _].
Qed.

(** C8. [invalidate] runs to its end without awaiting anything; it
    sends nothing, clears both tokens, and in a manager in use changes
    no other field (it adds one record to the log). The next
    [get_tokens] then sends the page request once, whatever was cached
    before. *)
Theorem invalidate_is_local client w :
  exists w',
    run client invalidate w = (Returned tt, w')
    /\ advance invalidate w = (Finished (Returned tt), w')
    /\ Unauthenticated (self w')
    /\ sent w' = sent w
    /\ log w' = (log w ++ [(INFO, "Invalidating cached tokens")])%list
    /\ (reachable client w ->
        self w' = set_quote_token None (set_csrf_token None (self w)))
    /\ sent (run client get_tokens w').2 = (sent w ++ [page_request])%list.
Proof.
  eexists. split; [apply invalidate_run|].
  split; [reflexivity|]. split; [done|]. split; [done|]. split; [done|]. split.
  - intros Hr. apply reachable_well_formed in Hr as (_ & _ & _ & Hh).
    simpl. unfold set_headers_cache, set_quote_token, set_csrf_token. simpl.
    by rewrite Hh.
  - match goal with |- sent (run client get_tokens ?w0).2 = _ =>
      destruct (run client get_tokens w0) as [[h|e] w'] eqn:Hrun end; simpl.
    + apply get_tokens_returned in Hrun as [_ [[(c & q & Hc & _) _] | [_ Hf]]].
      * discriminate Hc.
      * by destruct Hf as (r & c & q & _ & _ & _ & _ & _ & Ht & _).
    + by apply get_tokens_raised in Hrun as [_ Ht].
Qed.

(** C9. When [get_tokens] (on a manager in use) or [refresh_tokens]
    returns, both tokens are non-empty strings and are the values of
    the two token headers, so neither header value is empty. *)
Theorem returned_tokens_nonempty client w h w' :
  (reachable client w /\ run client get_tokens w = (Returned h, w'))
  \/ run client refresh_tokens w = (Returned h, w') ->
  exists c q,
    csrf_token (self w') = Some c /\ quote_token (self w') = Some q
    /\ c <> "" /\ q <> ""
    /\ h !! "futu-x-csrf-token" = Some c
    /\ h !! "quote-token" = Some q.
Proof.
  assert (forall w0,
            csrf_token (self w0) <> Some "" -> quote_token (self w0) <> Some "" ->
            run client get_tokens w0 = (Returned h, w') ->
            exists c q,
              csrf_token (self w') = Some c /\ quote_token (self w') = Some q
              /\ c <> "" /\ q <> ""
              /\ h !! "futu-x-csrf-token" = Some c
              /\ h !! "quote-token" = Some q) as Hget.
  { intros w0 Hc0 Hq0 Hrun.
    apply get_tokens_returned in Hrun as [-> Hcase].
    assert (exists c q, csrf_token (self w') = Some c
                        /\ quote_token (self w') = Some q
                        /\ c <> "" /\ q <> "") as (c & q & Hc & Hq & Hcne & Hqne).
    { destruct Hcase as [[(c & q & Hc & Hq) ->] | [_ Hf]].
      - exists c, q. repeat split; congruence.
      - destruct Hf as (r & c & q & _ & _ & -> & Hcne & Hqne & _).
        by exists c, q. }
    exists c, q. repeat split; try done.
    - unfold Token._build_headers. rewrite Hc, lookup_insert_eq.
      by rewrite PyFacts.or_str_nonempty.
    - unfold Token._build_headers. rewrite Hq, lookup_insert_ne by done.
      rewrite lookup_insert_eq. by rewrite PyFacts.or_str_nonempty. }
  intros [[Hr Hrun] | Hrun].
  - apply (reachable_well_formed client) in Hr as (_ & Hc & Hq & _).
    by apply (Hget w).
  - rewrite refresh_tokens_unfold in Hrun. by apply (Hget (cleared w)).
Qed.

(** *** Several callers at once *)

Lemma sync_extract_csrf r ck : sync (_extract_csrf_token r ck).
Proof.
  unfold Token._extract_csrf_token.
  destruct (Py.truthy _); [done|]. by destruct (Re.search _ _).
Qed.

Lemma sync_extract_quote r ck : sync (_extract_quote_token r ck).
Proof. unfold Token._extract_quote_token. by destruct (Re.search _ _). Qed.

(** The fetch suspends at the request; what remains of it once the
    round trip is over ends the call. *)
Lemma advance_fetch :
  exists k, Token.settles k
            /\ forall w, advance _fetch_tokens w = (Suspended page_request k, requested w).
Proof.
  eexists. split; [|intros w; unfold Token._fetch_tokens; simpl; reflexivity].
  intros [r|msg] w; simpl.
  - destruct (status_code r =? 200)%Z; simpl.
    + pose (cl := fun _ : nat => Failed "").
      destruct (extract_csrf_ok cl r (cookies r) w)
        as (c & w1 & Hr1 & _ & Hs1 & Ht1).
      destruct (extract_quote_ok cl r (cookies r)
                  (with_self (set_csrf_token (Some c)) w1))
        as (q & w2 & Hr2 & _ & Hs2 & Ht2).
      rewrite advance_try_except, advance_bind.
      rewrite (sync_advance cl _ _ (sync_extract_csrf r (cookies r))), Hr1. simpl.
      rewrite advance_bind.
      rewrite (sync_advance cl _ _ (sync_extract_quote r (cookies r))), Hr2. simpl.
      eexists _, _. split; [reflexivity|]. simpl. split.
      * by rewrite Ht2, <- Ht1.
      * right. rewrite Hs2. simpl. split; by eexists.
    + eexists _, _. split; [reflexivity|]. split; [done | by left].
  - eexists _, _. split; [reflexivity|]. split; [done | by left].
Qed.

Lemma settles_then {A B} (k : Outcome -> coro A) (f : TokenManager -> B) :
  Token.settles k ->
  Token.settles (fun o => k o ≫= (fun _ => get_self ≫= (fun s => mret (f s)))).
Proof.
  intros Hk o w. destruct (Hk o w) as (r & w' & Ha & Ht & Hs).
  rewrite advance_bind, Ha. destruct r as [a|e]; simpl; by eexists _, _.
Qed.

Lemma advance_get_tokens_cached w c q :
  csrf_token (self w) = Some c -> quote_token (self w) = Some q ->
  advance get_tokens w = (Finished (Returned (_build_headers (self w))), w).
Proof.
  intros Hc Hq. unfold Token.get_tokens. simpl. by rewrite Hc, Hq.
Qed.

Lemma advance_get_tokens_missing :
  exists k, Token.settles k
            /\ forall w, csrf_token (self w) = None \/ quote_token (self w) = None ->
                         advance get_tokens w = (Suspended page_request k, requested w).
Proof.
  destruct advance_fetch as (k & Hk & Hadv).
  eexists. split; [exact (settles_then k _build_headers Hk)|].
  intros w Hn. unfold Token.get_tokens. rewrite advance_bind.
  change (advance get_self w) with (Finished (Returned (self w)), w).
  cbv beta iota.
  assert (Py.is_None (csrf_token (self w)) || Py.is_None (quote_token (self w))
          = true) as ->.
  { destruct Hn as [-> | ->]; [done|]. by destruct (csrf_token (self w)). }
  by rewrite advance_bind, Hadv.
Qed.

Lemma step_loop_ok a l l' :
  step a l = Some l' -> Token.loop_ok STOCK_LIST_PAGE l ->
  Token.loop_ok STOCK_LIST_PAGE l'
  /\ length (tasks l') = length (tasks l)
  /\ length (sent (world l')) + Token.pending l'
     <= length (sent (world l)) + Token.pending l.
Proof.
  intros Hstep [Htasks Hbn].
  destruct a as [i|i o]; simpl in Hstep;
    destruct (tasks l !! i) as [[p|rq k|res]|] eqn:Hi; try discriminate.
  - pose proof (Forall_lookup_1 _ _ _ _ Htasks Hi) as Hp. simpl in Hp. subst p.
    pose proof (fun t => count_insert Token.is_pending (tasks l) i _ t Hi)
      as Hcount.
    destruct (missing_or_cached (self (world l))) as [Hn | (c & q & Hc & Hq)].
    + destruct advance_get_tokens_missing as (k & Hk & Hadv).
      rewrite (Hadv _ Hn) in Hstep. inversion Hstep; subst l'; clear Hstep.
      specialize (Hcount (Suspended page_request k)).
      unfold Token.pending, Token.loop_ok. simpl in *.
      rewrite length_insert, length_app. simpl. repeat split; try done; [|lia].
      apply Forall_insert; [done|]. by split.
    + rewrite (advance_get_tokens_cached _ _ _ Hc Hq) in Hstep.
      inversion Hstep; subst l'; clear Hstep.
      specialize (Hcount (Finished (Returned (_build_headers (self (world l)))))).
      unfold Token.pending, Token.loop_ok. simpl in *.
      rewrite length_insert. repeat split; try done; [|lia].
      by apply Forall_insert.
  - pose proof (Forall_lookup_1 _ _ _ _ Htasks Hi) as [_ Hk]. simpl in Hk.
    destruct (Hk o (world l)) as (res & w' & Ha & Ht & Hs).
    rewrite Ha in Hstep. inversion Hstep; subst l'; clear Hstep.
    pose proof (count_insert Token.is_pending (tasks l) i _ (Finished res) Hi)
      as Hcount.
    unfold Token.pending, Token.loop_ok. simpl in *.
    rewrite length_insert, Ht. repeat split; try done; [| |lia].
    + by apply Forall_insert.
    + destruct Hs as [-> | Hs]; [done | by right].
Qed.

Lemma steps_loop_ok acts : forall l l',
  steps acts l = Some l' -> Token.loop_ok STOCK_LIST_PAGE l ->
  Token.loop_ok STOCK_LIST_PAGE l'
  /\ length (tasks l') = length (tasks l)
  /\ length (sent (world l')) + Token.pending l'
     <= length (sent (world l)) + Token.pending l.
Proof.
  induction acts as [|a acts IH]; intros l l' Hsteps Hok; simpl in Hsteps.
  - inversion Hsteps; subst. split; [exact Hok|]. split; [done | lia].
  - destruct (step a l) as [l1|] eqn:Hstep; [|discriminate].
    destruct (step_loop_ok _ _ _ Hstep Hok) as (Hok1 & Hlen1 & Hsent1).
    destruct (IH _ _ Hsteps Hok1) as (Hok' & Hlen' & Hsent').
    split; [exact Hok'|]. split; lia.
Qed.

(** Started one after the other before any round trip ends, all the
    callers of an empty manager are suspended at once. *)
Lemma start_all m : forall (pre : list (Task (gmap string string))) w,
  Forall (fun t => is_suspended t = true) pre ->
  csrf_token (self w) = None \/ quote_token (self w) = None ->
  exists l,
    steps (map Start (seq (length pre) m))
      {| world := w; tasks := (pre ++ replicate m (Pending get_tokens))%list |}
    = Some l
    /\ in_flight l = length pre + m.
Proof.
  destruct advance_get_tokens_missing as (k & Hk & Hadv).
  induction m as [|m IH]; intros pre w Hpre Hn.
  - simpl. eexists. split; [reflexivity|]. unfold in_flight. simpl.
    rewrite app_nil_r, Nat.add_0_r. f_equal.
    clear -Hpre. induction Hpre as [|t ts Ht Hts IHts]; [done|].
    rewrite filter_cons. case_decide; [|done]. by rewrite IHts.
  - cbn [seq map steps step replicate tasks world].
    rewrite lookup_app_r by lia. rewrite Nat.sub_diag.
    cbn [lookup list_lookup]. rewrite (Hadv _ Hn).
    replace (<[length pre := Suspended page_request k]>
               (pre ++ Pending get_tokens :: replicate m (Pending get_tokens))%list)
      with ((pre ++ [Suspended page_request k])
            ++ replicate m (Pending get_tokens))%list.
    2:{ rewrite insert_app_r_alt by lia. rewrite Nat.sub_diag. simpl.
        by rewrite <- app_assoc. }
    destruct (IH (pre ++ [Suspended page_request k])%list (requested w))
      as (l & Hl & Hfl).
    + apply Forall_app. split; [done|]. by constructor.
    + exact Hn.
    + rewrite length_app in Hl, Hfl. simpl in Hl, Hfl.
      rewrite Nat.add_1_r in Hl. exists l. split; [exact Hl | lia].
Qed.

(** C10, as amended. [get_tokens] does not serialize its callers: each
    of [n] callers that finds a token missing sends its own request, so
    up to [n] round trips are in flight at once. Whatever the
    interleaving, no caller sends more than one request, and the
    manager has both tokens or none at every scheduling point. *)
Theorem concurrent_callers n w :
  both_or_neither (self w) ->
  (forall acts l,
     steps acts (Token.callers STOCK_LIST_PAGE n w) = Some l ->
     in_flight l <= n
     /\ length (sent (world l)) <= length (sent w) + n
     /\ both_or_neither (self (world l)))
  /\ (Unauthenticated (self w) ->
      exists acts l,
        steps acts (Token.callers STOCK_LIST_PAGE n w) = Some l
        /\ in_flight l = n).
Proof.
  intros Hbn. split.
  - intros acts l Hsteps.
    assert (Token.loop_ok STOCK_LIST_PAGE (Token.callers STOCK_LIST_PAGE n w)) as Hok.
    { split; [|done]. simpl. by apply Forall_replicate. }
    destruct (steps_loop_ok _ _ _ Hsteps Hok) as ([_ Hbn'] & Hlen & Hsent).
    simpl in Hlen, Hsent. rewrite length_replicate in Hlen.
    assert (Token.pending (Token.callers STOCK_LIST_PAGE n w) <= n) as Hp.
    { unfold Token.pending. simpl.
      etransitivity; [apply length_filter|]. by rewrite length_replicate. }
    repeat split; [| lia | done].
    unfold in_flight. etransitivity; [apply length_filter|]. lia.
  - intros [Hc _].
    destruct (start_all n [] w) as (l & Hl & Hfl); [done | by left |].
    by exists (map Start (seq 0 n)), l.
Qed.

End Methods.

(* ===================================================================== *)
(** ** The properties on sample runs *)
(* ===================================================================== *)

Section Runs.
Import httpx Coro Samples.

Local Abbreviation get_tokens := (Token.get_tokens page).
Local Abbreviation refresh_tokens := (Token.refresh_tokens page).
Local Abbreviation page_request := (Token.page_request page).
Local Abbreviation serving r := (always (Responded r)).

(** The world a first successful [get_tokens] leaves. *)
Local Abbreviation served r := (run (serving r) get_tokens Token.fresh).2.

(** The scenario of the specification: a 200 page whose body holds
    both keys gives their values as the two token headers. *)
Example tokens_in_body :
  exists h w,
    run (serving ok_both) get_tokens Token.fresh = (Returned h, w)
    /\ h !! "futu-x-csrf-token" = Some "abc123"
    /\ h !! "quote-token" = Some "xyz789"
    /\ length (sent w) = 1.
Proof.
  exists (Token._build_headers page (self (served ok_both))), (served ok_both).
  repeat split; vm_refl.
Qed.

(** After a call that failed, on a transport that fails once. *)
Lemma tokens_both_or_neither_witness :
  Token.reachable page flaky (run flaky (Token.call page Token.GetTokens) Token.fresh).2
  /\ Token.both_or_neither
       (self (run flaky get_tokens
                (run flaky (Token.call page Token.GetTokens) Token.fresh).2).2)
  /\ Token.both_or_neither
       (self (run flaky refresh_tokens
                (run flaky (Token.call page Token.GetTokens) Token.fresh).2).2).
Proof.
  assert (Token.reachable page flaky
            (run flaky (Token.call page Token.GetTokens) Token.fresh).2) as Hr.
  { apply Token.reach_call, Token.reach_fresh. }
  split; [exact Hr|]. exact (tokens_both_or_neither page flaky _ Hr).
Defined.

(** The scenario of the specification: the page answers 403. *)
Lemma fetch_failure_raises_witness :
  (exists r, serving forbidden (length (sent Token.fresh)) = Responded r
             /\ status_code r <> 200%Z
             /\ TokenExpiredError "Failed to fetch tokens: HTTP 403"
                = TokenExpiredError
                    ("Failed to fetch tokens: HTTP " ++ Py.str_int (status_code r)))
  /\ Token.Unauthenticated (self Token.fresh)
  /\ exists w',
       run (serving forbidden) get_tokens Token.fresh
       = (Raised (TokenExpiredError "Failed to fetch tokens: HTTP 403"), w')
       /\ self w' = self Token.fresh
       /\ sent w' = (sent Token.fresh ++ [page_request])%list.
Proof.
  assert (exists r, serving forbidden (length (sent Token.fresh)) = Responded r
                    /\ status_code r <> 200%Z
                    /\ TokenExpiredError "Failed to fetch tokens: HTTP 403"
                       = TokenExpiredError
                           ("Failed to fetch tokens: HTTP "
                            ++ Py.str_int (status_code r))) as Hfail.
  { exists forbidden. split; [reflexivity|]. split; [simpl; lia | vm_refl]. }
  assert (Token.Unauthenticated (self Token.fresh)) as Hun.
  { split; reflexivity. }
  split; [exact Hfail|]. split; [exact Hun|].
  exact (proj1 (fetch_failure_raises page (serving forbidden)
                  Token.fresh _ (or_intror Hfail)) Hun).
Defined.

(** C3 as stated fails: with both tokens cached, two calls in a row
    make no fetch at all, not one. *)
Lemma get_tokens_twice_counterexample :
  Token.Authenticated (self cached)
  /\ fetches cached
       (run (serving ok_both) get_tokens
          (run (serving ok_both) get_tokens cached).2).2 = 0
  /\ fetches cached
       (run (serving ok_both) get_tokens
          (run (serving ok_both) get_tokens cached).2).2 <> 1.
Proof.
  assert (fetches cached
            (run (serving ok_both) get_tokens
               (run (serving ok_both) get_tokens cached).2).2 = 0) as H0
    by vm_refl.
  split; [split; eexists; reflexivity|]. split; [exact H0|].
  rewrite H0. discriminate.
Qed.

Lemma get_tokens_twice_witness :
  run (serving ok_both) get_tokens Token.fresh
  = (Returned (Token._build_headers page (self (served ok_both))), served ok_both)
  /\ run (serving ok_both) get_tokens (served ok_both)
     = (Returned (Token._build_headers page (self (served ok_both))), served ok_both)
  /\ fetches Token.fresh (served ok_both) = 1.
Proof.
  assert (run (serving ok_both) get_tokens Token.fresh
          = (Returned (Token._build_headers page (self (served ok_both))),
             served ok_both)) as Hrun by vm_refl.
  split; [exact Hrun|].
  destruct (get_tokens_twice page _ _ _ _ Hrun) as (Hagain & _ & Hone).
  split; [exact Hagain|]. apply Hone. left. reflexivity.
Defined.

(** C4 as stated fails: a CSRF header that is there with an empty
    value is passed over for the value in the body. *)
Lemma csrf_extraction_priority_counterexample :
  headers ok_empty_header !! "x-csrf-token" = Some ""
  /\ (run (serving ok_empty_header)
        (Token._extract_csrf_token ok_empty_header (cookies ok_empty_header))
        Token.fresh).1
     = Returned (Some "abc123")
  /\ (run (serving ok_empty_header)
        (Token._extract_csrf_token ok_empty_header (cookies ok_empty_header))
        Token.fresh).1
     <> Returned (headers ok_empty_header !! "x-csrf-token").
Proof.
  assert (headers ok_empty_header !! "x-csrf-token" = Some "") as Hh by vm_refl.
  assert ((run (serving ok_empty_header)
             (Token._extract_csrf_token ok_empty_header (cookies ok_empty_header))
             Token.fresh).1
          = Returned (Some "abc123")) as Hv by vm_refl.
  split; [exact Hh|]. split; [exact Hv|]. rewrite Hv, Hh. discriminate.
Qed.

(** The header wins over a body that disagrees; without it the body
    value is used; without either, the fallback. *)
Lemma csrf_extraction_priority_witness :
  (headers ok_header !! "x-csrf-token" = Some "hdr456"
   /\ Re.occurs Re.csrf_re (text ok_header)
   /\ run (serving ok_header) (Token._extract_csrf_token ok_header ∅) Token.fresh
      = (Returned (Some "hdr456"), Token.fresh))
  /\ (headers ok_both !! "x-csrf-token" = None
      /\ Re.occurs Re.csrf_re (text ok_both)
      /\ exists mt,
           Re.search Re.csrf_re (text ok_both) = Some mt
           /\ run (serving ok_both) (Token._extract_csrf_token ok_both ∅) Token.fresh
              = (Returned (Re.group_1 mt), Token.fresh))
  /\ (headers ok_bare !! "x-csrf-token" = None
      /\ ~ Re.occurs Re.csrf_re (text ok_bare)
      /\ run (serving ok_bare) (Token._extract_csrf_token ok_bare ∅) Token.fresh
         = (Returned (Some "iwtmChEzi0ixw18P983l5ai7"),
            with_log WARNING "Could not extract CSRF token, using fallback"
              Token.fresh)).
Proof.
  assert (Re.occurs Re.csrf_re body_both) as Hocc.
  { apply ReFacts.search_Some.
    exists {| Re.group_1 := Some "abc123" |}. vm_refl. }
  assert (~ Re.occurs Re.csrf_re body_bare) as Hno.
  { apply ReFacts.search_None. vm_refl. }
  assert (headers ok_header !! "x-csrf-token" = Some "hdr456") as Hh1 by vm_refl.
  assert (headers ok_both !! "x-csrf-token" = None) as Hh2 by vm_refl.
  assert (headers ok_bare !! "x-csrf-token" = None) as Hh3 by vm_refl.
  split; [|split].
  - split; [exact Hh1|]. split; [exact Hocc|].
    apply (proj1 (csrf_extraction_priority (serving ok_header) ok_header ∅
                    Token.fresh) _ Hh1).
    discriminate.
  - split; [exact Hh2|]. split; [exact Hocc|].
    exact (proj1 (proj2 (csrf_extraction_priority (serving ok_both) ok_both ∅
                           Token.fresh) (or_introl Hh2)) Hocc).
  - split; [exact Hh3|]. split; [exact Hno|].
    exact (proj2 (proj2 (csrf_extraction_priority (serving ok_bare) ok_bare ∅
                           Token.fresh) (or_introl Hh3)) Hno).
Defined.

Lemma fallback_on_missing_data_witness :
  (csrf_token (self Token.fresh) = None \/ quote_token (self Token.fresh) = None)
  /\ serving ok_bare (length (sent Token.fresh)) = Responded ok_bare
  /\ status_code ok_bare = 200%Z
  /\ headers ok_bare !! "x-csrf-token" = None
  /\ ~ Re.occurs Re.csrf_re (text ok_bare)
  /\ ~ Re.occurs Re.quote_re (text ok_bare)
  /\ exists h w',
       run (serving ok_bare) get_tokens Token.fresh = (Returned h, w')
       /\ h !! "futu-x-csrf-token" = Some "iwtmChEzi0ixw18P983l5ai7"
       /\ h !! "quote-token" = Some "99227e34c9".
Proof.
  assert (csrf_token (self Token.fresh) = None
          \/ quote_token (self Token.fresh) = None) as Hn by (left; reflexivity).
  assert (headers ok_bare !! "x-csrf-token" = None) as Hh by vm_refl.
  assert (~ Re.occurs Re.csrf_re (text ok_bare)) as Hc.
  { apply ReFacts.search_None. vm_refl. }
  assert (~ Re.occurs Re.quote_re (text ok_bare)) as Hq.
  { apply ReFacts.search_None. vm_refl. }
  split; [exact Hn|]. split; [reflexivity|]. split; [reflexivity|].
  split; [exact Hh|]. split; [exact Hc|]. split; [exact Hq|].
  exact (fallback_on_missing_data page (serving ok_bare) Token.fresh ok_bare
           Hn eq_refl eq_refl Hh Hc Hq).
Defined.

(** With tokens cached, [refresh_tokens] still fetches, and returns
    the tokens of the new page. *)
Lemma refresh_forces_fetch_witness :
  Token.Authenticated (self cached)
  /\ run (serving ok_bare) refresh_tokens cached
     = (Returned (Token._build_headers page
                    (self (run (serving ok_bare) refresh_tokens cached).2)),
        (run (serving ok_bare) refresh_tokens cached).2)
  /\ sent (run (serving ok_bare) refresh_tokens cached).2
     = (sent cached ++ [page_request])%list
  /\ exists r c q,
       serving ok_bare (length (sent cached)) = Responded r
       /\ status_code r = 200%Z
       /\ (run (serving ok_bare) (Token._extract_csrf_token r (cookies r)) cached).1
          = Returned (Some c)
       /\ (run (serving ok_bare) (Token._extract_quote_token r (cookies r)) cached).1
          = Returned (Some q)
       /\ csrf_token (self (run (serving ok_bare) refresh_tokens cached).2) = Some c
       /\ quote_token (self (run (serving ok_bare) refresh_tokens cached).2) = Some q
       /\ Token._build_headers page
            (self (run (serving ok_bare) refresh_tokens cached).2)
          = Token._build_headers page
              (self (run (serving ok_bare) refresh_tokens cached).2).
Proof.
  assert (run (serving ok_bare) refresh_tokens cached
          = (Returned (Token._build_headers page
                         (self (run (serving ok_bare) refresh_tokens cached).2)),
             (run (serving ok_bare) refresh_tokens cached).2)) as Hrun by vm_refl.
  destruct (refresh_forces_fetch page (serving ok_bare) cached)
    as (_ & _ & Hsent & Hret).
  split; [split; eexists; reflexivity|]. split; [exact Hrun|].
  split; [exact Hsent|]. exact (Hret _ _ Hrun).
Defined.

(** A manager that was never given a token still gets all five
    headers, the two token headers empty. *)
Lemma headers_shape_witness :
  csrf_token Token.__init__ = None
  /\ quote_token Token.__init__ = None
  /\ size (Token._build_headers page Token.__init__) = 5
  /\ Token._build_headers page Token.__init__ !! "futu-x-csrf-token" = Some ""
  /\ Token._build_headers page Token.__init__ !! "quote-token" = Some ""
  /\ (run (serving ok_both) get_tokens Token.fresh
      = (Returned (Token._build_headers page (self (served ok_both))),
         served ok_both)
      \/ run (serving ok_both) refresh_tokens Token.fresh
         = (Returned (Token._build_headers page (self (served ok_both))),
            served ok_both))
  /\ Token._build_headers page (self (served ok_both))
     = Token._build_headers page (self (served ok_both)).
Proof.
  assert (run (serving ok_both) get_tokens Token.fresh
          = (Returned (Token._build_headers page (self (served ok_both))),
             served ok_both)) as Hgot by vm_refl.
  destruct (headers_shape page Token.__init__)
    as (_ & Hsize & _ & _ & _ & _ & _ & Hc & Hq & _ & Hrun).
  split; [reflexivity|]. split; [reflexivity|]. split; [exact Hsize|].
  split; [exact (Hc eq_refl)|]. split; [exact (Hq eq_refl)|].
  split; [left; exact Hgot|].
  exact (Hrun _ _ _ _ (or_introl Hgot)).
Defined.

(** Invalidating a manager that holds fetched tokens. *)
Lemma invalidate_is_local_witness :
  Token.reachable page (serving ok_both)
    (run (serving ok_both) (Token.call page Token.GetTokens) Token.fresh).2
  /\ exists w',
       run (serving ok_both) Token.invalidate
         (run (serving ok_both) (Token.call page Token.GetTokens) Token.fresh).2
       = (Returned tt, w')
       /\ Token.Unauthenticated (self w')
       /\ self w'
          = set_quote_token None
              (set_csrf_token None
                 (self (run (serving ok_both) (Token.call page Token.GetTokens)
                          Token.fresh).2))
       /\ sent (run (serving ok_both) get_tokens w').2
          = (sent (run (serving ok_both) (Token.call page Token.GetTokens)
                     Token.fresh).2
             ++ [page_request])%list.
Proof.
  assert (Token.reachable page (serving ok_both)
            (run (serving ok_both) (Token.call page Token.GetTokens)
               Token.fresh).2) as Hr.
  { apply Token.reach_call, Token.reach_fresh. }
  split; [exact Hr|].
  destruct (invalidate_is_local page (serving ok_both)
              (run (serving ok_both) (Token.call page Token.GetTokens)
                 Token.fresh).2)
    as (w' & Hrun & _ & Hun & _ & _ & Hself & Hnext).
  exists w'. split; [exact Hrun|]. split; [exact Hun|].
  split; [exact (Hself Hr) | exact Hnext].
Defined.

(** Even the fallback path leaves non-empty tokens. *)
Lemma returned_tokens_nonempty_witness :
  (Token.reachable page (serving ok_bare) Token.fresh
   /\ run (serving ok_bare) get_tokens Token.fresh
      = (Returned (Token._build_headers page (self (served ok_bare))),
         served ok_bare))
  /\ exists c q,
       csrf_token (self (served ok_bare)) = Some c
       /\ quote_token (self (served ok_bare)) = Some q
       /\ c <> "" /\ q <> "".
Proof.
  assert (Token.reachable page (serving ok_bare) Token.fresh
          /\ run (serving ok_bare) get_tokens Token.fresh
             = (Returned (Token._build_headers page (self (served ok_bare))),
                served ok_bare)) as Hyp.
  { split; [apply Token.reach_fresh | vm_refl]. }
  split; [exact Hyp|].
  destruct (returned_tokens_nonempty page _ _ _ _ (or_introl Hyp))
    as (c & q & Hc & Hq & Hcne & Hqne & _).
  exists c, q. repeat split; assumption.
Defined.

(** C10 as stated fails: two callers of an empty manager, both started
    before either round trip ends, have two requests in flight. *)
Lemma concurrent_callers_counterexample :
  in_flight <$> steps [Start 0; Start 1] (Token.callers page 2 Token.fresh) = Some 2
  /\ ~ (forall l,
          steps [Start 0; Start 1] (Token.callers page 2 Token.fresh) = Some l ->
          in_flight l <= 1).
Proof.
  assert (in_flight <$> steps [Start 0; Start 1] (Token.callers page 2 Token.fresh)
          = Some 2) as H2 by vm_refl.
  split; [exact H2|]. intros Hall.
  destruct (steps [Start 0; Start 1] (Token.callers page 2 Token.fresh)) as [l|];
    [|discriminate H2].
  specialize (Hall l eq_refl). simpl in H2. inversion H2. lia.
Qed.

(** Two callers, neither started yet. *)
Lemma concurrent_callers_witness :
  Token.both_or_neither (self Token.fresh)
  /\ Token.Unauthenticated (self Token.fresh)
  /\ (forall acts l,
        steps acts (Token.callers page 2 Token.fresh) = Some l ->
        in_flight l <= 2
        /\ length (sent (world l)) <= length (sent Token.fresh) + 2
        /\ Token.both_or_neither (self (world l)))
  /\ exists acts l,
       steps acts (Token.callers page 2 Token.fresh) = Some l /\ in_flight l = 2.
Proof.
  assert (Token.Unauthenticated (self Token.fresh)) as Hun.
  { split; reflexivity. }
  assert (Token.both_or_neither (self Token.fresh)) as Hbn.
  { left. exact Hun. }
  split; [exact Hbn|]. split; [exact Hun|].
  destruct (concurrent_callers page 2 Token.fresh Hbn) as [Hall Hsome].
  split; [exact Hall | exact (Hsome Hun)].
Defined.

End Runs.

(* ===================================================================== *)
(** ** What the patterns capture *)
(* ===================================================================== *)

Module TextFacts.
Import Re Text.

Lemma app_nil (t : string) : "" ++ t = t.
Proof. reflexivity. Qed.

Lemma app_cons a (s t : string) : String a s ++ t = String a (s ++ t).
Proof. reflexivity. Qed.

Lemma all_chars_app p s t :
  all_chars p (s ++ t) = all_chars p s && all_chars p t.
Proof.
  induction s as [|a s IH]; [done|].
  rewrite app_cons. simpl. by rewrite IH, andb_assoc.
Qed.

Lemma length_append (s t : string) :
  String.length (s ++ t) = String.length s + String.length t.
Proof.
  induction s as [|a s IH]; [done|]. rewrite app_cons. simpl. by rewrite IH.
Qed.

Lemma substring_prefix (p s : string) :
  substring 0 (String.length p) (p ++ s) = p.
Proof.
  induction p as [|a p IH]; [by destruct s|].
  rewrite app_cons. simpl. by rewrite IH.
Qed.

Lemma consumed_app (p s : string) : consumed (p ++ s) s = p.
Proof.
  unfold consumed. rewrite length_append.
  replace (String.length p + String.length s - String.length s)
    with (String.length p) by lia.
  apply substring_prefix.
Qed.

Lemma append_assoc (s t u : string) : (s ++ t) ++ u = s ++ (t ++ u).
Proof.
  induction s as [|a s IH]; [done|]. by rewrite !app_cons, IH.
Qed.

Lemma append_nil_r (s : string) : s ++ "" = s.
Proof. induction s as [|a s IH]; [done|]. by rewrite app_cons, IH. Qed.

(** A match takes a prefix of the subject. *)
Lemma matches_prefix r s g s' g' :
  matches r s g s' g' -> exists p, s = p ++ s'.
Proof.
  induction 1 as [s g|c a s g Ha|c s g|c a s g Ha|c s g|c a s s' g Ha Hm IH
                 |c a s s' g Ha Hm IH|r s g s' g' Hm IH
                 |r1 r2 s g s1 g1 s2 g2 Hm1 IH1 Hm2 IH2].
  - by exists "".
  - by exists (String a "").
  - by exists "".
  - by exists (String a "").
  - by exists "".
  - destruct IH as [p ->]. by exists (String a p).
  - destruct IH as [p ->]. by exists (String a p).
  - exact IH.
  - destruct IH1 as [p1 ->], IH2 as [p2 ->]. exists (p1 ++ p2).
    by rewrite append_assoc.
Qed.

(** What [c*] takes is made of characters of [c]. *)
Lemma matches_star c s g s' g' :
  matches (Star c) s g s' g' ->
  exists p, s = p ++ s' /\ all_chars (fun a => cset_mem a c) p = true /\ g' = g.
Proof.
  intros Hm. remember (Star c) as r eqn:Hr.
  induction Hm; inversion Hr; subst.
  - by exists "".
  - destruct (IHHm eq_refl) as (p & -> & Hp & _).
    exists (String a p). simpl. by rewrite H, Hp.
Qed.

Lemma matches_plus c s g s' g' :
  matches (Plus c) s g s' g' ->
  exists p, s = p ++ s' /\ p <> ""
            /\ all_chars (fun a => cset_mem a c) p = true /\ g' = g.
Proof.
  intros Hm. inversion Hm as [| | | | | |c0 a s0 s0' g0 Ha Hstar| |]; subst.
  destruct (matches_star _ _ _ _ _ Hstar) as (p & -> & Hp & _).
  exists (String a p). simpl. by rewrite Ha, Hp.
Qed.

Lemma matches_one c s g s' g' :
  matches (One c) s g s' g' ->
  exists a, s = String a s' /\ cset_mem a c = true /\ g' = g.
Proof. intros Hm. inversion Hm; subst. by eexists. Qed.

Lemma matches_seq r1 r2 s g s' g' :
  matches (Seq r1 r2) s g s' g' ->
  exists s1 g1, matches r1 s g s1 g1 /\ matches r2 s1 g1 s' g'.
Proof. intros Hm. inversion Hm; subst. by eexists _, _. Qed.

Lemma matches_group r s g s' g' :
  matches (Group r) s g s' g' ->
  g' = Some (consumed s s') /\ exists g0, matches r s g s' g0.
Proof. intros Hm. inversion Hm; subst. split; [done | by eexists]. Qed.

Lemma mem_quotes a : cset_mem a (Chars quotes) = is_quote a.
Proof. reflexivity. Qed.

(** The quoted value: group 1 is the text between two quotes, non-empty
    and free of quotes. *)
Lemma matches_quoted_value s g s' g' :
  matches quoted_value s g s' g' ->
  exists p q1 v q2,
    s = p ++ String q1 (v ++ String q2 s')
    /\ g' = Some v /\ v <> "" /\ quote_free v = true
    /\ is_quote q1 = true /\ is_quote q2 = true.
Proof.
  unfold quoted_value. intros Hm.
  apply matches_seq in Hm as (s1 & g1 & Hm1 & Hm).
  apply matches_seq in Hm as (s2 & g2 & Hm2 & Hm).
  apply matches_seq in Hm as (s3 & g3 & Hm3 & Hm).
  apply matches_seq in Hm as (s4 & g4 & Hm4 & Hm).
  apply matches_seq in Hm as (s5 & g5 & Hm5 & Hm).
  apply matches_seq in Hm as (s6 & g6 & Hm6 & Hm7).
  apply matches_prefix in Hm1 as [p1 ->], Hm2 as [p2 ->], Hm3 as [p3 ->],
    Hm4 as [p4 ->].
  apply matches_one in Hm5 as (q1 & -> & Hq1 & _).
  apply matches_group in Hm6 as [-> [g0 Hm6]].
  apply matches_plus in Hm6 as (v & -> & Hv & Hvq & _).
  apply matches_one in Hm7 as (q2 & -> & Hq2 & ->).
  exists (p1 ++ p2 ++ p3 ++ p4), q1, v, q2.
  rewrite consumed_app. repeat split; try done.
  by rewrite !append_assoc.
Qed.

Lemma matches_keyed key s g s' g' :
  matches (keyed key) s g s' g' ->
  exists p q1 v q2,
    s = p ++ String q1 (v ++ String q2 s')
    /\ g' = Some v /\ v <> "" /\ quote_free v = true
    /\ is_quote q1 = true /\ is_quote q2 = true.
Proof.
  unfold keyed. intros Hm.
  apply matches_seq in Hm as (s1 & g1 & Hm1 & Hm).
  apply matches_seq in Hm as (s2 & g2 & Hm2 & Hm).
  apply matches_seq in Hm as (s3 & g3 & Hm3 & Hm).
  apply matches_prefix in Hm1 as [p1 ->], Hm2 as [p2 ->], Hm3 as [p3 ->].
  apply matches_quoted_value in Hm as (p & q1 & v & q2 & -> & Hg & Hv & Hq & H1 & H2).
  exists (p1 ++ p2 ++ p3 ++ p), q1, v, q2. repeat split; try done.
  by rewrite !append_assoc.
Qed.

(** A found match sits in the subject between two quotes. *)
Lemma search_keyed key s mt :
  search (keyed key) s = Some mt ->
  exists pre q1 v q2 post,
    s = pre ++ String q1 (v ++ String q2 post)
    /\ group_1 mt = Some v /\ v <> "" /\ quote_free v = true
    /\ is_quote q1 = true /\ is_quote q2 = true.
Proof.
  intros Hs. apply ReFacts.search_sound in Hs as (pre & rest & s' & -> & Hm).
  apply matches_keyed in Hm as (p & q1 & v & q2 & -> & Hg & Hv & Hq & H1 & H2).
  exists (pre ++ p), q1, v, q2, s'. repeat split; try done.
  by rewrite append_assoc.
Qed.

(** A subject without quotes holds neither pattern. *)
Lemma search_quote_free key s :
  quote_free s = true -> search (keyed key) s = None.
Proof.
  intros Hq. destruct (search (keyed key) s) as [mt|] eqn:Hs; [|done].
  apply search_keyed in Hs as (pre & q1 & v & q2 & post & -> & _ & _ & _ & H1 & _).
  unfold quote_free in Hq. rewrite all_chars_app in Hq. simpl in Hq.
  rewrite H1 in Hq. simpl in Hq. by rewrite andb_false_r in Hq.
Qed.

(** *** Reading back what was written *)

Lemma m_lit {A} key s g (K : string -> option string -> option A) :
  m (lit key) (key ++ s) g K = K s g.
Proof.
  revert s; induction key as [|a key IH]; intros s; [done|].
  rewrite app_cons. destruct key as [|b key].
  - simpl. unfold mem. simpl. by rewrite Ascii.eqb_refl.
  - change (lit (String a (String b key)))
      with (Seq (One (Chars [a])) (lit (String b key))).
    simpl m at 1. unfold mem. simpl existsb. rewrite Ascii.eqb_refl. simpl orb.
    cbv beta iota. apply IH.
Qed.

(** [c*] takes the whole run when what follows the run is not in [c] and
    the rest of the pattern accepts it. *)
Lemma greedy_max {A} c run rest (K : string -> option A) x :
  all_chars (fun a => cset_mem a c) run = true ->
  match rest with
  | String b _ => cset_mem b c = false
  | EmptyString => True
  end ->
  K rest = Some x ->
  repeat_greedy c (run ++ rest) K = Some x.
Proof.
  intros Hrun Hrest HK. induction run as [|a run IH].
  - rewrite app_nil. destruct rest as [|b rest]; simpl; [done|]. by rewrite Hrest.
  - simpl in Hrun. apply andb_prop in Hrun as [Ha Hrun].
    rewrite app_cons. simpl. by rewrite Ha, (IH Hrun).
Qed.

Lemma quote_not_space a : is_quote a = true -> isspace a = false.
Proof.
  unfold is_quote, mem, quotes. simpl. rewrite orb_false_r.
  intros [H|H]%orb_prop; apply Ascii.eqb_eq in H; by subst a.
Qed.

Lemma m_quoted_value {A} q1 ws1 d ws2 q2 v q3 post g
    (K : string -> option string -> option A) x :
  is_quote q1 = true -> is_quote q2 = true -> is_quote q3 = true ->
  blank ws1 = true -> blank ws2 = true ->
  d = ":"%char \/ d = "="%char ->
  v <> "" -> quote_free v = true ->
  K post (Some v) = Some x ->
  m quoted_value
    (String q1 (ws1 ++ String d (ws2 ++ String q2 (v ++ String q3 post)))) g K
  = Some x.
Proof.
  intros H1 H2 H3 Hw1 Hw2 Hd Hv Hvq HK.
  assert (forall q, is_quote q = true ->
            (Ascii.eqb q dq || (Ascii.eqb q "'" || false)) = true) as Hq
    by (intros q Hquote; exact Hquote).
  destruct v as [|a v]; [done|].
  simpl in Hvq. apply andb_prop in Hvq as [Ha Hvq].
  unfold quoted_value. simpl m. rewrite (Hq q1 H1).
  apply greedy_max; [exact Hw1 | by destruct Hd as [-> | ->] |].
  cbv beta iota.
  assert (Ascii.eqb d ":" || (Ascii.eqb d "=" || false) = true) as ->
    by (by destruct Hd as [-> | ->]).
  apply greedy_max; [exact Hw2 | by apply quote_not_space |].
  cbv beta iota. rewrite (Hq q2 H2), app_cons.
  change (Ascii.eqb a dq || (Ascii.eqb a "'" || false)) with (is_quote a).
  rewrite Ha.
  apply greedy_max; [exact Hvq | simpl; by rewrite (Hq q3 H3) |].
  cbv beta iota. rewrite (Hq q3 H3).
  by rewrite <- app_cons, consumed_app.
Qed.

Lemma m_seq {A} r1 r2 s g (K : string -> option string -> option A) :
  m (Seq r1 r2) s g K = m r1 s g (fun s' g' => m r2 s' g' K).
Proof. reflexivity. Qed.

Lemma m_opt_skip {A} c s g (K : string -> option string -> option A) :
  match s with
  | String a _ => cset_mem a c = false
  | EmptyString => True
  end ->
  m (Opt c) s g K = K s g.
Proof. destruct s as [|a s]; simpl; [done|]. by intros ->. Qed.

Lemma m_opt_take {A} c a s g (K : string -> option string -> option A) x :
  cset_mem a c = true -> K s g = Some x -> m (Opt c) (String a s) g K = Some x.
Proof. intros Ha HK. simpl. by rewrite Ha, HK. Qed.

Lemma entry_app key sep q1 ws1 d ws2 q2 v q3 post :
  entry key sep q1 ws1 d ws2 q2 v q3 ++ post
  = key ++ (sep ++ ("token"
      ++ String q1 (ws1 ++ String d (ws2 ++ String q2 (v ++ String q3 post))))).
Proof.
  unfold entry. rewrite !append_assoc. do 3 f_equal.
  repeat first [rewrite app_cons | rewrite append_assoc | rewrite app_nil].
  reflexivity.
Qed.

Lemma m_keyed {A} key sep q1 ws1 d ws2 q2 v q3 post g
    (K : string -> option string -> option A) x :
  sep = "" \/ sep = "_" \/ sep = "-" ->
  is_quote q1 = true -> is_quote q2 = true -> is_quote q3 = true ->
  blank ws1 = true -> blank ws2 = true ->
  d = ":"%char \/ d = "="%char ->
  v <> "" -> quote_free v = true ->
  K post (Some v) = Some x ->
  m (keyed key) (entry key sep q1 ws1 d ws2 q2 v q3 ++ post) g K = Some x.
Proof.
  intros Hsep H1 H2 H3 Hw1 Hw2 Hd Hv Hvq HK.
  rewrite entry_app. unfold keyed.
  rewrite m_seq, m_lit, m_seq.
  assert (m (lit "token")
            ("token" ++ String q1 (ws1 ++ String d (ws2 ++ String q2 (v ++ String q3 post))))
            g (fun s' g' => m quoted_value s' g' K) = Some x) as Hrest.
  { rewrite m_lit. by apply m_quoted_value. }
  rewrite <- m_seq in Hrest.
  destruct Hsep as [-> | [-> | ->]].
  - rewrite app_nil, m_opt_skip by reflexivity. exact Hrest.
  - rewrite app_cons, app_nil. by apply m_opt_take.
  - rewrite app_cons, app_nil. by apply m_opt_take.
Qed.

Lemma match_at_wrong_start k0 key a s :
  Ascii.eqb a k0 = false -> match_at (keyed (String k0 key)) (String a s) = None.
Proof.
  intros Ha. unfold match_at, keyed.
  destruct key as [|b key]; simpl; unfold mem; simpl; by rewrite Ha.
Qed.

(** An entry is found behind any text that does not hold the first
    character of the key. *)
Lemma search_entry k0 key sep q1 ws1 d ws2 q2 v q3 pre post :
  all_chars (fun a => negb (Ascii.eqb a k0)) pre = true ->
  sep = "" \/ sep = "_" \/ sep = "-" ->
  is_quote q1 = true -> is_quote q2 = true -> is_quote q3 = true ->
  blank ws1 = true -> blank ws2 = true ->
  d = ":"%char \/ d = "="%char ->
  v <> "" -> quote_free v = true ->
  search (keyed (String k0 key))
    (pre ++ entry (String k0 key) sep q1 ws1 d ws2 q2 v q3 ++ post)
  = Some {| group_1 := Some v |}.
Proof.
  intros Hpre Hsep H1 H2 H3 Hw1 Hw2 Hd Hv Hvq.
  assert (match_at (keyed (String k0 key))
            (entry (String k0 key) sep q1 ws1 d ws2 q2 v q3 ++ post)
          = Some {| group_1 := Some v |}) as Hat.
  { unfold match_at. by apply m_keyed. }
  induction pre as [|a pre IH].
  - rewrite app_nil.
    destruct (entry (String k0 key) sep q1 ws1 d ws2 q2 v q3 ++ post);
      simpl; by rewrite Hat.
  - simpl in Hpre. apply andb_prop in Hpre as [Ha Hpre].
    apply negb_true_iff in Ha.
    rewrite app_cons. simpl. rewrite (match_at_wrong_start _ _ _ _ Ha).
    by apply IH.
Qed.

End TextFacts.

(* ===================================================================== *)
(** ** Further properties of the manager *)
(* ===================================================================== *)

Module CoroMore.
Import httpx Coro.

(** The log is written, never read: two worlds that differ in the log
    only give the same result, the same manager and the same requests. *)
Lemma run_log_irrelevant {A} client (p : coro A) : forall w w',
  self w = self w' -> sent w = sent w' ->
  (run client p w).1 = (run client p w').1
  /\ self (run client p w).2 = self (run client p w').2
  /\ sent (run client p w).2 = sent (run client p w').2.
Proof.
  induction p as [a|e|k IH|g k IH|lvl msg k IH|rq k IH];
    intros w w' Hs Ht; simpl.
  - done.
  - done.
  - rewrite Hs. by apply IH.
  - apply IH; simpl; by rewrite ?Hs.
  - by apply IH.
  - rewrite Ht. apply IH; simpl; by rewrite ?Ht.
Qed.

Lemma steps_app {A} (acts acts' : list Action) (l : Loop A) :
  steps (acts ++ acts') l
  = match steps acts l with
    | Some l' => steps acts' l'
    | None => None
    end.
Proof.
  revert l; induction acts as [|a acts IH]; intros l; simpl; [done|].
  by destruct (step a l).
Qed.

End CoroMore.

Section More.
Import httpx Coro CoroFacts Text TextFacts.

Variable STOCK_LIST_PAGE : string.

Local Abbreviation _extract_csrf_token := Token._extract_csrf_token.
Local Abbreviation _extract_quote_token := Token._extract_quote_token.
Local Abbreviation page_request := (Token.page_request STOCK_LIST_PAGE).
Local Abbreviation _fetch_tokens := (Token._fetch_tokens STOCK_LIST_PAGE).
Local Abbreviation _build_headers := (Token._build_headers STOCK_LIST_PAGE).
Local Abbreviation get_tokens := (Token.get_tokens STOCK_LIST_PAGE).
Local Abbreviation refresh_tokens := (Token.refresh_tokens STOCK_LIST_PAGE).
Local Abbreviation invalidate := Token.invalidate.
Local Abbreviation reachable := (Token.reachable STOCK_LIST_PAGE).
Local Abbreviation Unauthenticated := Token.Unauthenticated.
Local Abbreviation Authenticated := Token.Authenticated.

Implicit Types (client : nat -> Outcome) (w : World) (r : Response).

(** *** Extraction *)

(** X1. The quote token is the value the body pattern captures when the
    pattern occurs in the body, and the fallback constant, with a
    warning logged, when it does not. *)
Theorem quote_extraction client r ck w :
  (Re.occurs Re.quote_re (text r) ->
     exists mt, Re.search Re.quote_re (text r) = Some mt
                /\ run client (_extract_quote_token r ck) w
                   = (Returned (Re.group_1 mt), w))
  /\ (~ Re.occurs Re.quote_re (text r) ->
        run client (_extract_quote_token r ck) w
        = (Returned (Some "99227e34c9"),
           with_log WARNING "Could not extract quote token, using fallback" w)).
Proof.
  split.
  - intros Ho. apply ReFacts.search_Some in Ho as [mt Hs].
    exists mt. split; [done|]. by apply extract_quote_body.
  - intros Ho. apply ReFacts.search_None in Ho. by apply extract_quote_fallback.
Qed.

(** X2. Extraction reads the body and the [x-csrf-token] header and
    nothing else: the cookies handed to it, the status and the other
    headers of the response make no difference to either token. *)
Theorem extraction_inputs client client' r r' ck ck' w w' :
  text r' = text r ->
  (run client' (_extract_quote_token r' ck') w').1
  = (run client (_extract_quote_token r ck) w).1
  /\ (headers r' !! "x-csrf-token" = headers r !! "x-csrf-token" ->
      (run client' (_extract_csrf_token r' ck') w').1
      = (run client (_extract_csrf_token r ck) w).1).
Proof.
  intros Ht. split.
  - unfold Token._extract_quote_token. rewrite Ht.
    by destruct (Re.search _ _).
  - intros Hh. unfold Token._extract_csrf_token. rewrite Ht, Hh.
    destruct (Py.truthy _); [done|]. by destruct (Re.search _ _).
Qed.

(** X3. A token is never taken from anywhere but these: the quote token
    is the fallback constant or a non-empty text without quotes that
    stands between two quotes in the body; the CSRF token is the header
    value, the fallback constant, or such a text. *)
Theorem extracted_token_origin client r ck w v :
  ((run client (_extract_quote_token r ck) w).1 = Returned (Some v) ->
     v = "99227e34c9"
     \/ exists pre q1 q2 post,
          text r = pre ++ String q1 (v ++ String q2 post)
          /\ is_quote q1 = true /\ is_quote q2 = true
          /\ v <> "" /\ quote_free v = true)
  /\ ((run client (_extract_csrf_token r ck) w).1 = Returned (Some v) ->
        headers r !! "x-csrf-token" = Some v
        \/ v = "iwtmChEzi0ixw18P983l5ai7"
        \/ exists pre q1 q2 post,
             text r = pre ++ String q1 (v ++ String q2 post)
             /\ is_quote q1 = true /\ is_quote q2 = true
             /\ v <> "" /\ quote_free v = true).
Proof.
  split.
  - unfold Token._extract_quote_token.
    destruct (Re.search Re.quote_re (text r)) as [mt|] eqn:Hs; simpl.
    + intros Hv. right.
      apply (search_keyed "quote") in Hs
        as (pre & q1 & v' & q2 & post & Ht & Hg & Hne & Hq & H1 & H2).
      assert (v' = v) as -> by congruence. by exists pre, q1, q2, post.
    + intros Hv. left. congruence.
  - unfold Token._extract_csrf_token.
    destruct (Py.truthy (headers r !! "x-csrf-token")) eqn:Hh; simpl.
    + intros Hv. left. congruence.
    + destruct (Re.search Re.csrf_re (text r)) as [mt|] eqn:Hs; simpl.
      * intros Hv. right. right.
        apply (search_keyed "csrf") in Hs
          as (pre & q1 & v' & q2 & post & Ht & Hg & Hne & Hq & H1 & H2).
        assert (v' = v) as -> by congruence. by exists pre, q1, q2, post.
      * intros Hv. right. left. congruence.
Qed.

(** X4. Reading back what was written: a body that holds the key
    ([csrf] or [quote], then an optional [_] or [-], then [token]), a
    quote, a colon or an equals sign with any white space around it, and
    a non-empty value without quotes between two quotes, gives that
    value, provided the first letter of the key does not occur earlier
    in the body (and, for the CSRF token, the header is absent or
    empty). *)
Theorem entry_round_trip client r ck w sep q1 ws1 d ws2 q2 v q3 pre post :
  sep = "" \/ sep = "_" \/ sep = "-" ->
  is_quote q1 = true -> is_quote q2 = true -> is_quote q3 = true ->
  blank ws1 = true -> blank ws2 = true ->
  d = ":"%char \/ d = "="%char ->
  v <> "" -> quote_free v = true ->
  (all_chars (fun a => negb (Ascii.eqb a "q")) pre = true ->
   text r = pre ++ entry "quote" sep q1 ws1 d ws2 q2 v q3 ++ post ->
   run client (_extract_quote_token r ck) w = (Returned (Some v), w))
  /\ (all_chars (fun a => negb (Ascii.eqb a "c")) pre = true ->
      text r = pre ++ entry "csrf" sep q1 ws1 d ws2 q2 v q3 ++ post ->
      Py.truthy (headers r !! "x-csrf-token") = false ->
      run client (_extract_csrf_token r ck) w = (Returned (Some v), w)).
Proof.
  intros Hsep H1 H2 H3 Hw1 Hw2 Hd Hv Hq. split.
  - intros Hpre Ht.
    pose proof (search_entry "q" "uote" sep q1 ws1 d ws2 q2 v q3 pre post
                  Hpre Hsep H1 H2 H3 Hw1 Hw2 Hd Hv Hq) as Hs.
    rewrite <- Ht in Hs. by rewrite (extract_quote_body _ _ _ _ _ Hs).
  - intros Hpre Ht Hh.
    pose proof (search_entry "c" "srf" sep q1 ws1 d ws2 q2 v q3 pre post
                  Hpre Hsep H1 H2 H3 Hw1 Hw2 Hd Hv Hq) as Hs.
    rewrite <- Ht in Hs. by rewrite (extract_csrf_body _ _ _ _ _ Hh Hs).
Qed.

(** X5. A body without any quote character, the empty body among them,
    holds neither pattern: the quote token is the fallback, and so is
    the CSRF token unless the header gives one; a warning is logged for
    each. *)
Theorem quote_free_body_falls_back client r ck w :
  quote_free (text r) = true ->
  run client (_extract_quote_token r ck) w
  = (Returned (Some "99227e34c9"),
     with_log WARNING "Could not extract quote token, using fallback" w)
  /\ (Py.truthy (headers r !! "x-csrf-token") = false ->
      run client (_extract_csrf_token r ck) w
      = (Returned (Some "iwtmChEzi0ixw18P983l5ai7"),
         with_log WARNING "Could not extract CSRF token, using fallback" w)).
Proof.
  intros Hq. split.
  - apply extract_quote_fallback. by apply (search_quote_free "quote").
  - intros Hh. apply extract_csrf_fallback; [done|].
    by apply (search_quote_free "csrf").
Qed.

(** *** What a fetch leaves in the log *)

Lemma extract_csrf_log client r ck w :
  log (run client (_extract_csrf_token r ck) w).2
  = (log w
     ++ if Py.truthy (headers r !! "x-csrf-token") then []
        else match Re.search Re.csrf_re (text r) with
             | Some _ => []
             | None => [(WARNING, "Could not extract CSRF token, using fallback")]
             end)%list.
Proof.
  unfold Token._extract_csrf_token.
  destruct (Py.truthy _); simpl; [by rewrite app_nil_r|].
  destruct (Re.search _ _); simpl; [by rewrite app_nil_r | done].
Qed.

Lemma extract_quote_log client r ck w :
  log (run client (_extract_quote_token r ck) w).2
  = (log w
     ++ match Re.search Re.quote_re (text r) with
        | Some _ => []
        | None => [(WARNING, "Could not extract quote token, using fallback")]
        end)%list.
Proof.
  unfold Token._extract_quote_token.
  destruct (Re.search _ _); simpl; [by rewrite app_nil_r | done].
Qed.

Lemma fetch_ok_log client w r :
  client (length (sent w)) = Responded r -> status_code r = 200%Z ->
  log (run client _fetch_tokens w).2
  = (log w
     ++ [(INFO, "Fetching authentication tokens from Futunn")]
     ++ (if Py.truthy (headers r !! "x-csrf-token") then []
         else match Re.search Re.csrf_re (text r) with
              | Some _ => []
              | None => [(WARNING, "Could not extract CSRF token, using fallback")]
              end)
     ++ match Re.search Re.quote_re (text r) with
        | Some _ => []
        | None => [(WARNING, "Could not extract quote token, using fallback")]
        end
     ++ [(INFO, "Successfully fetched tokens: csrf=True, quote=True")])%list.
Proof.
  intros Hc Hst.
  set (w0 := with_sent page_request
               (with_log INFO "Fetching authentication tokens from Futunn" w)).
  destruct (extract_csrf_ok client r (cookies r) w0)
    as (c & w1 & Hr1 & Hc1 & Hs1 & Ht1).
  destruct (extract_quote_ok client r (cookies r)
              (with_self (set_csrf_token (Some c)) w1))
    as (q & w2 & Hr2 & Hc2 & Hs2 & Ht2).
  pose proof (extract_csrf_log client r (cookies r) w0) as Hl1.
  pose proof (extract_quote_log client r (cookies r)
                (with_self (set_csrf_token (Some c)) w1)) as Hl2.
  rewrite Hr1 in Hl1. rewrite Hr2 in Hl2. simpl in Hl1, Hl2.
  unfold Token._fetch_tokens. rewrite run_try_except.
  simpl. rewrite Hc. simpl. rewrite Hst. simpl.
  fold w0. rewrite run_bind, Hr1. simpl.
  rewrite run_bind, Hr2. simpl.
  rewrite Hs2. simpl. rewrite Hl2, Hl1.
  destruct c as [|a c]; [done|]. destruct q as [|b q]; [done|]. simpl.
  by rewrite <- !app_assoc.
Qed.

(** X6. A fetch that succeeds logs its start, a warning for each token
    that fell back to its constant and for no other, and a last record
    that always reads [csrf=True, quote=True]: no fetch ever reports a
    token as missing. *)
Theorem success_log client w r :
  csrf_token (self w) = None \/ quote_token (self w) = None ->
  client (length (sent w)) = Responded r ->
  status_code r = 200%Z ->
  log (run client get_tokens w).2
  = (log w
     ++ [(INFO, "Fetching authentication tokens from Futunn")]
     ++ (if Py.truthy (headers r !! "x-csrf-token") then []
         else match Re.search Re.csrf_re (text r) with
              | Some _ => []
              | None => [(WARNING, "Could not extract CSRF token, using fallback")]
              end)
     ++ match Re.search Re.quote_re (text r) with
        | Some _ => []
        | None => [(WARNING, "Could not extract quote token, using fallback")]
        end
     ++ [(INFO, "Successfully fetched tokens: csrf=True, quote=True")])%list.
Proof.
  intros Hn Ho Hst. rewrite <- (fetch_ok_log _ _ _ Ho Hst).
  rewrite (get_tokens_fetches _ _ _ Hn).
  by destruct (run client _fetch_tokens w) as [[[]|e] w'].
Qed.

(** X7. What the other calls log: a call served from the cache logs
    nothing; a network error logs the start of the fetch and one error
    record with the message of the error; a status other than 200 logs
    the start of the fetch and nothing about the failure. *)
Theorem failure_log client w :
  (Authenticated (self w) -> log (run client get_tokens w).2 = log w)
  /\ (csrf_token (self w) = None \/ quote_token (self w) = None ->
      (forall msg, client (length (sent w)) = Failed msg ->
         log (run client get_tokens w).2
         = (log w ++ [(INFO, "Fetching authentication tokens from Futunn");
                      (ERROR, ("Network error while fetching tokens: " ++ msg)%string)])%list)
      /\ (forall r, client (length (sent w)) = Responded r ->
            status_code r <> 200%Z ->
            log (run client get_tokens w).2
            = (log w ++ [(INFO, "Fetching authentication tokens from Futunn")])%list)).
Proof.
  split.
  - intros [[c Hc] [q Hq]]. by rewrite (get_tokens_cached _ _ _ _ _ Hc Hq).
  - intros Hn. split.
    + intros msg Ho.
      rewrite (get_tokens_fetches _ _ _ Hn), (fetch_network_error _ _ _ _ Ho).
      simpl. by rewrite <- app_assoc.
    + intros r Ho Hst.
      by rewrite (get_tokens_fetches _ _ _ Hn), (fetch_bad_status _ _ _ _ Ho Hst).
Qed.

(** *** What a fresh fetch hands to the caller *)

(** X8. After a fetch that got a 200 response, [get_tokens] returns the
    two tokens it stored, and they come from the response by priority:
    the CSRF token is the non-empty [x-csrf-token] header when there is
    one and else what the body pattern captures when it is found; the
    quote token is what its body pattern captures when it is found. *)
Theorem tokens_from_page client w r :
  csrf_token (self w) = None \/ quote_token (self w) = None ->
  client (length (sent w)) = Responded r ->
  status_code r = 200%Z ->
  exists c q w',
    run client get_tokens w = (Returned (_build_headers (self w')), w')
    /\ csrf_token (self w') = Some c /\ quote_token (self w') = Some q
    /\ _build_headers (self w') !! "futu-x-csrf-token" = Some c
    /\ _build_headers (self w') !! "quote-token" = Some q
    /\ (forall v, headers r !! "x-csrf-token" = Some v -> v <> "" -> c = v)
    /\ (Py.truthy (headers r !! "x-csrf-token") = false ->
        forall mt, Re.search Re.csrf_re (text r) = Some mt ->
                   Re.group_1 mt = Some c)
    /\ (forall mt, Re.search Re.quote_re (text r) = Some mt ->
                   Re.group_1 mt = Some q).
Proof.
  intros Hn Ho Hst.
  destruct (fetch_ok STOCK_LIST_PAGE _ _ _ Ho Hst)
    as (c & q & w' & Hf & Hs & Hc & Hq & _ & Hvc & Hvq).
  exists c, q, w'. split; [by rewrite (get_tokens_fetches _ _ _ Hn), Hf|].
  rewrite Hs. split; [done|]. split; [done|]. split.
  { destruct c as [|a c]; [done | reflexivity]. }
  split.
  { destruct q as [|a q]; [done | reflexivity]. }
  split; [|split].
  - intros v Hh Hv. specialize (Hvc client w).
    rewrite (extract_csrf_header _ _ _ _ _ Hh Hv) in Hvc. simpl in Hvc. congruence.
  - intros Hh mt Hsearch. specialize (Hvc client w).
    rewrite (extract_csrf_body _ _ _ _ _ Hh Hsearch) in Hvc. simpl in Hvc. congruence.
  - intros mt Hsearch. specialize (Hvq client w).
    rewrite (extract_quote_body _ _ _ _ _ Hsearch) in Hvq. simpl in Hvq. congruence.
Qed.

(** *** Calls one after the other *)

Lemma get_tokens_sent client w :
  sent (run client get_tokens w).2 = sent w
  \/ sent (run client get_tokens w).2 = (sent w ++ [page_request])%list.
Proof.
  destruct (run client get_tokens w) as [[h|e] w'] eqn:Hrun; simpl.
  - apply (get_tokens_returned STOCK_LIST_PAGE) in Hrun
      as [_ [[_ ->] | [_ Hf]]]; [by left|].
    destruct Hf as (r & c & q & _ & _ & _ & _ & _ & Ht & _). by right.
  - apply (get_tokens_raised STOCK_LIST_PAGE) in Hrun as [_ Ht]. by right.
Qed.

Lemma call_sent client c w :
  sent (run client (Token.call STOCK_LIST_PAGE c) w).2 = sent w
  \/ sent (run client (Token.call STOCK_LIST_PAGE c) w).2
     = (sent w ++ [page_request])%list.
Proof.
  destruct c.
  - change (Token.call _ _) with (get_tokens ;; mret tt).
    rewrite run_drop_result. apply get_tokens_sent.
  - change (Token.call _ _) with (refresh_tokens ;; mret tt).
    rewrite run_drop_result, refresh_tokens_unfold.
    destruct (get_tokens_sent client
                (with_self (set_quote_token None)
                   (with_self (set_csrf_token None)
                      (with_log INFO "Refreshing authentication tokens" w))))
      as [H|H]; rewrite H; [by left | by right].
  - left. reflexivity.
Qed.

(** X9. The manager sends one kind of request only: every request it
    ever sent is the GET of the stock list page, following redirects,
    with the browser user agent that the returned headers carry too,
    and with no token header in it; and no public call sends more than
    one. *)
Theorem requests_are_page_visits client w :
  reachable client w ->
  Forall (fun rq => rq = page_request) (sent w)
  /\ url page_request = STOCK_LIST_PAGE
  /\ follow_redirects page_request = true
  /\ dom (req_headers page_request)
     = {[ "User-Agent"; "Accept"; "Accept-Language" ]}
  /\ (forall s, req_headers page_request !! "User-Agent"
                = _build_headers s !! "user-agent")
  /\ (forall c, length (sent (run client (Token.call STOCK_LIST_PAGE c) w).2)
                <= length (sent w) + 1).
Proof.
  intros Hr. split; [|split; [done|split; [done|split; [|split]]]].
  - induction Hr as [|c w Hr IH]; [constructor|].
    destruct (call_sent client c w) as [-> | ->]; [done|].
    apply Forall_app. split; [done|]. by constructor.
  - unfold Token.page_request. simpl.
    rewrite !dom_insert_L, dom_empty_L. set_solver.
  - reflexivity.
  - intros c. destruct (call_sent client c w) as [-> | ->]; [lia|].
    rewrite length_app. simpl. lia.
Qed.

(** X10. A failure is not remembered: a call that raises raises
    [TokenExpiredError] and nothing else, leaves the manager as it found
    it, and the next call fetches again, and returns with both tokens
    set if the page now answers 200. *)
Theorem failure_not_cached client w e w' :
  run client get_tokens w = (Raised e, w') ->
  (exists msg, e = TokenExpiredError msg)
  /\ self w' = self w
  /\ sent (run client get_tokens w').2 = (sent w' ++ [page_request])%list
  /\ (forall r, client (length (sent w')) = Responded r ->
                status_code r = 200%Z ->
                exists h w'', run client get_tokens w' = (Returned h, w'')
                              /\ Authenticated (self w'')).
Proof.
  intros Hrun.
  destruct (missing_or_cached (self w)) as [Hn | (c & q & Hc & Hq)];
    [|by rewrite (get_tokens_cached _ _ _ _ _ Hc Hq) in Hrun].
  assert (exists msg, e = TokenExpiredError msg) as He.
  { rewrite (get_tokens_fetches _ _ _ Hn) in Hrun.
    destruct (client (length (sent w))) as [r|msg] eqn:Ho.
    - destruct (Z.eq_dec (status_code r) 200%Z) as [Hst|Hst].
      + destruct (fetch_ok STOCK_LIST_PAGE _ _ _ Ho Hst) as (c & q & w1 & Hf & _).
        by rewrite Hf in Hrun.
      + rewrite (fetch_bad_status _ _ _ _ Ho Hst) in Hrun.
        inversion Hrun. by eexists.
    - rewrite (fetch_network_error _ _ _ _ Ho) in Hrun.
      inversion Hrun. by eexists. }
  apply (get_tokens_raised STOCK_LIST_PAGE) in Hrun as [Hs Ht].
  rewrite <- Hs in Hn.
  split; [exact He|]. split; [exact Hs|]. split.
  - destruct (run client get_tokens w') as [[h|e'] w''] eqn:Hnext; simpl.
    + apply (get_tokens_returned STOCK_LIST_PAGE) in Hnext
        as [_ [[(c & q & Hc & Hq) _] | [_ Hf]]].
      * destruct Hn; congruence.
      * by destruct Hf as (r & c & q & _ & _ & _ & _ & _ & Ht' & _).
    + by apply (get_tokens_raised STOCK_LIST_PAGE) in Hnext as [_ Ht'].
  - intros r Ho Hst.
    destruct (fetch_ok STOCK_LIST_PAGE _ _ _ Ho Hst)
      as (c & q & w'' & Hf & Hs' & _).
    exists (_build_headers (self w'')), w''.
    split; [by rewrite (get_tokens_fetches _ _ _ Hn), Hf|].
    rewrite Hs'. split; by eexists.
Qed.

(** X11. On a manager in use, [refresh_tokens] does what [invalidate]
    followed by [get_tokens] does: the same result, the same manager
    and the same requests (the two log different words). *)
Theorem refresh_is_invalidate_then_get client w :
  reachable client w ->
  (run client refresh_tokens w).1
  = (run client get_tokens (run client invalidate w).2).1
  /\ self (run client refresh_tokens w).2
     = self (run client get_tokens (run client invalidate w).2).2
  /\ sent (run client refresh_tokens w).2
     = sent (run client get_tokens (run client invalidate w).2).2.
Proof.
  intros Hr.
  apply (reachable_well_formed STOCK_LIST_PAGE) in Hr as (_ & _ & _ & Hh).
  rewrite refresh_tokens_unfold, invalidate_run. cbn [snd].
  apply CoroMore.run_log_irrelevant; [|done].
  simpl. unfold set_headers_cache, set_quote_token, set_csrf_token. simpl.
  by rewrite Hh.
Qed.

(** *** Callers that overlap *)

(** What a suspended [get_tokens] does when its round trip ends, stated
    for the world it wakes up in. *)
Lemma advance_get_tokens_resume :
  exists k,
    (forall w, csrf_token (self w) = None \/ quote_token (self w) = None ->
               advance get_tokens w
               = (Suspended page_request k,
                  with_sent page_request
                    (with_log INFO "Fetching authentication tokens from Futunn" w)))
    /\ (forall msg w,
          advance (k (Failed msg)) w
          = (Finished (Raised (TokenExpiredError ("Network error: " ++ msg))),
             with_log ERROR ("Network error while fetching tokens: " ++ msg) w))
    /\ (forall r w, status_code r <> 200%Z ->
          advance (k (Responded r)) w
          = (Finished (Raised (TokenExpiredError
                                 ("Failed to fetch tokens: HTTP "
                                  ++ Py.str_int (status_code r)))), w))
    /\ (forall r w, status_code r = 200%Z ->
          exists c q w',
            advance (k (Responded r)) w
            = (Finished (Returned (_build_headers (self w'))), w')
            /\ self w' = set_quote_token (Some q) (set_csrf_token (Some c) (self w))
            /\ sent w' = sent w
            /\ (forall cl w0, (run cl (_extract_csrf_token r (cookies r)) w0).1
                              = Returned (Some c))
            /\ (forall cl w0, (run cl (_extract_quote_token r (cookies r)) w0).1
                              = Returned (Some q))).
Proof.
  eexists. split; [|split; [|split]].
  - intros w Hn. unfold Token.get_tokens. rewrite advance_bind.
    change (advance get_self w) with (Finished (Returned (self w)), w).
    cbv beta iota.
    assert (Py.is_None (csrf_token (self w)) || Py.is_None (quote_token (self w))
            = true) as ->.
    { destruct Hn as [-> | ->]; [done|]. by destruct (csrf_token (self w)). }
    rewrite advance_bind. unfold Token._fetch_tokens. simpl. reflexivity.
  - intros msg w. reflexivity.
  - intros r w Hst. apply Z.eqb_neq in Hst. simpl. by rewrite Hst.
  - intros r w Hst. cbv beta.
    pose (cl := fun _ : nat => Failed "").
    destruct (extract_csrf_ok cl r (cookies r) w)
      as (c & w1 & Hr1 & _ & Hs1 & Ht1).
    destruct (extract_quote_ok cl r (cookies r)
                (with_self (set_csrf_token (Some c)) w1))
      as (q & w2 & Hr2 & _ & Hs2 & Ht2).
    exists c, q.
    eexists (with_log INFO _ (with_self (set_quote_token (Some q)) w2)).
    split; [|split; [|split; [|split]]].
    + rewrite advance_bind, advance_try_except. simpl. rewrite Hst. simpl.
      rewrite advance_bind.
      rewrite (sync_advance cl _ _ (sync_extract_csrf r (cookies r))), Hr1. simpl.
      rewrite advance_bind.
      rewrite (sync_advance cl _ _ (sync_extract_quote r (cookies r))), Hr2. simpl.
      reflexivity.
    + simpl. rewrite Hs2. simpl. by rewrite Hs1.
    + simpl. rewrite Ht2. simpl. by rewrite Ht1.
    + intros cl' w0.
      by rewrite (extract_csrf_value cl' cl r (cookies r) w0 w), Hr1.
    + intros cl' w0.
      by rewrite (extract_quote_value cl' cl r (cookies r) w0
                    (with_self (set_csrf_token (Some c)) w1)), Hr2.
Qed.

(** X12. Two callers that overlap on a manager without tokens each make
    their own round trip, and each ends by its own response alone. If
    the first gets a 200 page and the second a network error, the second
    raises although both tokens are cached by then, and the cached
    tokens stay. If both get a 200 page, the tokens of the response that
    arrives last replace those of the first. *)
Theorem race_between_callers w r0 :
  csrf_token (self w) = None \/ quote_token (self w) = None ->
  status_code r0 = 200%Z ->
  (forall msg, exists l h0,
      steps [Start 0; Start 1; Deliver 0 (Responded r0); Deliver 1 (Failed msg)]
        (Token.callers STOCK_LIST_PAGE 2 w) = Some l
      /\ tasks l
         = [Finished (Returned h0);
            Finished (Raised (TokenExpiredError ("Network error: " ++ msg)))]
      /\ h0 = _build_headers (self (world l))
      /\ Authenticated (self (world l))
      /\ sent (world l) = (sent w ++ [page_request; page_request])%list)
  /\ (forall r1, status_code r1 = 200%Z ->
      exists l h0 h1 c1 q1,
        steps [Start 0; Start 1; Deliver 0 (Responded r0); Deliver 1 (Responded r1)]
          (Token.callers STOCK_LIST_PAGE 2 w) = Some l
        /\ tasks l = [Finished (Returned h0); Finished (Returned h1)]
        /\ h1 = _build_headers (self (world l))
        /\ csrf_token (self (world l)) = Some c1
        /\ quote_token (self (world l)) = Some q1
        /\ (forall cl w0, (run cl (_extract_csrf_token r1 (cookies r1)) w0).1
                          = Returned (Some c1))
        /\ (forall cl w0, (run cl (_extract_quote_token r1 (cookies r1)) w0).1
                          = Returned (Some q1))
        /\ sent (world l) = (sent w ++ [page_request; page_request])%list).
Proof.
  intros Hn Hst0.
  destruct advance_get_tokens_resume as (k & Hsusp & Hfail & _ & Hok).
  set (wa := with_sent page_request
               (with_log INFO "Fetching authentication tokens from Futunn" w)).
  set (wb := with_sent page_request
               (with_log INFO "Fetching authentication tokens from Futunn" wa)).
  destruct (Hok r0 wb Hst0) as (c0 & q0 & w0 & Ha0 & Hs0 & Ht0 & _).
  assert (steps [Start 0; Start 1; Deliver 0 (Responded r0)]
            (Token.callers STOCK_LIST_PAGE 2 w)
          = Some {| world := w0;
                    tasks := [Finished (Returned (_build_headers (self w0)));
                              Suspended page_request k] |}) as Hthree.
  { unfold Token.callers. cbn [replicate steps step tasks world lookup list_lookup].
    rewrite (Hsusp w Hn). fold wa.
    cbn [steps step tasks world lookup list_lookup insert list_insert].
    rewrite (Hsusp wa Hn). fold wb.
    cbn [steps step tasks world lookup list_lookup insert list_insert].
    rewrite Ha0. reflexivity. }
  assert (sent w0 = (sent w ++ [page_request; page_request])%list) as Hsent.
  { rewrite Ht0. simpl. by rewrite <- app_assoc. }
  split.
  - intros msg.
    exists {| world := with_log ERROR ("Network error while fetching tokens: " ++ msg) w0;
              tasks := [Finished (Returned (_build_headers (self w0)));
                        Finished (Raised (TokenExpiredError
                                            ("Network error: " ++ msg)))] |},
      (_build_headers (self w0)).
    split; [|split; [reflexivity|split; [|split]]].
    + change [Start 0; Start 1; Deliver 0 (Responded r0); Deliver 1 (Failed msg)]
        with ([Start 0; Start 1; Deliver 0 (Responded r0)]
              ++ [Deliver 1 (Failed msg)])%list.
      rewrite CoroMore.steps_app, Hthree.
      cbn [steps step tasks world lookup list_lookup insert list_insert].
      rewrite Hfail. reflexivity.
    + reflexivity.
    + simpl. rewrite Hs0. split; by eexists.
    + exact Hsent.
  - intros r1 Hst1.
    destruct (Hok r1 w0 Hst1) as (c1 & q1 & w1 & Ha1 & Hs1 & Ht1 & Hvc & Hvq).
    exists {| world := w1;
              tasks := [Finished (Returned (_build_headers (self w0)));
                        Finished (Returned (_build_headers (self w1)))] |},
      (_build_headers (self w0)), (_build_headers (self w1)), c1, q1.
    split; [|split; [reflexivity|split; [reflexivity|]]].
    + change [Start 0; Start 1; Deliver 0 (Responded r0); Deliver 1 (Responded r1)]
        with ([Start 0; Start 1; Deliver 0 (Responded r0)]
              ++ [Deliver 1 (Responded r1)])%list.
      rewrite CoroMore.steps_app, Hthree.
      cbn [steps step tasks world lookup list_lookup insert list_insert].
      rewrite Ha1. reflexivity.
    + simpl. rewrite Hs1. repeat split; try done. by rewrite Ht1.
Qed.

End More.

(* ===================================================================== *)
(** ** The further properties on sample runs *)
(* ===================================================================== *)

Section MoreRuns.
Import httpx Coro Samples Text.

Local Abbreviation get_tokens := (Token.get_tokens page).
Local Abbreviation refresh_tokens := (Token.refresh_tokens page).
Local Abbreviation page_request := (Token.page_request page).
Local Abbreviation serving r := (always (Responded r)).
Local Abbreviation served r := (run (serving r) get_tokens Token.fresh).2.

Lemma quote_extraction_witness :
  (Re.occurs Re.quote_re (text ok_both)
   /\ exists mt, Re.search Re.quote_re (text ok_both) = Some mt
                 /\ run (serving ok_both) (Token._extract_quote_token ok_both ∅)
                      Token.fresh
                    = (Returned (Re.group_1 mt), Token.fresh))
  /\ (~ Re.occurs Re.quote_re (text ok_bare)
      /\ run (serving ok_bare) (Token._extract_quote_token ok_bare ∅) Token.fresh
         = (Returned (Some "99227e34c9"),
            with_log WARNING "Could not extract quote token, using fallback"
              Token.fresh)).
Proof.
  assert (Re.occurs Re.quote_re (text ok_both)) as Hocc.
  { apply ReFacts.search_Some. exists {| Re.group_1 := Some "xyz789" |}. vm_refl. }
  assert (~ Re.occurs Re.quote_re (text ok_bare)) as Hno.
  { apply ReFacts.search_None. vm_refl. }
  split.
  - split; [exact Hocc|].
    exact (proj1 (quote_extraction (serving ok_both) ok_both ∅ Token.fresh) Hocc).
  - split; [exact Hno|].
    exact (proj2 (quote_extraction (serving ok_bare) ok_bare ∅ Token.fresh) Hno).
Defined.

(** The same body under another status, with other cookies. *)
Lemma extraction_inputs_witness :
  text forbidden = text {| status_code := 200; headers := ∅;
                            cookies := {[ "csrf" := "cookie" ]};
                            text := "Forbidden" |}
  /\ (run (serving forbidden) (Token._extract_quote_token forbidden ∅) Token.fresh).1
     = (run flaky
          (Token._extract_quote_token
             {| status_code := 200; headers := ∅;
                cookies := {[ "csrf" := "cookie" ]}; text := "Forbidden" |}
             {[ "csrf" := "cookie" ]}) cached).1.
Proof.
  split; [reflexivity|].
  exact (proj1 (extraction_inputs flaky (serving forbidden)
                  {| status_code := 200; headers := ∅;
                     cookies := {[ "csrf" := "cookie" ]}; text := "Forbidden" |}
                  forbidden {[ "csrf" := "cookie" ]} ∅ cached Token.fresh eq_refl)).
Defined.

Lemma extracted_token_origin_witness :
  (run (serving ok_both) (Token._extract_quote_token ok_both ∅) Token.fresh).1
  = Returned (Some "xyz789")
  /\ ("xyz789" = "99227e34c9"
      \/ exists pre q1 q2 post,
           text ok_both = pre ++ String q1 ("xyz789" ++ String q2 post)
           /\ is_quote q1 = true /\ is_quote q2 = true
           /\ "xyz789" <> "" /\ quote_free "xyz789" = true).
Proof.
  assert ((run (serving ok_both) (Token._extract_quote_token ok_both ∅)
             Token.fresh).1 = Returned (Some "xyz789")) as Hv by vm_refl.
  split; [exact Hv|].
  exact (proj1 (extracted_token_origin (serving ok_both) ok_both ∅ Token.fresh
                  "xyz789") Hv).
Defined.

(** The body of the scenario, read as an entry for each key. *)
Lemma entry_round_trip_witness :
  (text ok_both
   = ("{" ++ q ++ "csrf_token" ++ q ++ ": " ++ q ++ "abc123" ++ q ++ ", " ++ q)
     ++ entry "quote" "_" Re.dq "" ":" " " Re.dq "xyz789" Re.dq ++ "}"
   /\ run (serving ok_both) (Token._extract_quote_token ok_both ∅) Token.fresh
      = (Returned (Some "xyz789"), Token.fresh))
  /\ (text ok_both
      = ("{" ++ q)
        ++ entry "csrf" "_" Re.dq "" ":" " " Re.dq "abc123" Re.dq
        ++ (", " ++ q ++ "quote_token" ++ q ++ ": " ++ q ++ "xyz789" ++ q ++ "}")
      /\ Py.truthy (headers ok_both !! "x-csrf-token") = false
      /\ run (serving ok_both) (Token._extract_csrf_token ok_both ∅) Token.fresh
         = (Returned (Some "abc123"), Token.fresh)).
Proof.
  assert (text ok_both
          = ("{" ++ q ++ "csrf_token" ++ q ++ ": " ++ q ++ "abc123" ++ q ++ ", " ++ q)
            ++ entry "quote" "_" Re.dq "" ":" " " Re.dq "xyz789" Re.dq ++ "}")
    as Hq by vm_refl.
  assert (text ok_both
          = ("{" ++ q)
            ++ entry "csrf" "_" Re.dq "" ":" " " Re.dq "abc123" Re.dq
            ++ (", " ++ q ++ "quote_token" ++ q ++ ": " ++ q ++ "xyz789" ++ q ++ "}"))
    as Hc by vm_refl.
  assert (Py.truthy (headers ok_both !! "x-csrf-token") = false) as Hh by vm_refl.
  split.
  - split; [exact Hq|].
    apply (proj1 (entry_round_trip (serving ok_both) ok_both ∅ Token.fresh
                    "_" Re.dq "" ":" " " Re.dq "xyz789" Re.dq
                    ("{" ++ q ++ "csrf_token" ++ q ++ ": " ++ q ++ "abc123" ++ q
                     ++ ", " ++ q) "}"
                    (or_intror (or_introl eq_refl)) eq_refl eq_refl eq_refl
                    eq_refl eq_refl (or_introl eq_refl)
                    ltac:(discriminate) eq_refl));
      [vm_refl | exact Hq].
  - split; [exact Hc|]. split; [exact Hh|].
    apply (proj2 (entry_round_trip (serving ok_both) ok_both ∅ Token.fresh
                    "_" Re.dq "" ":" " " Re.dq "abc123" Re.dq
                    ("{" ++ q)
                    (", " ++ q ++ "quote_token" ++ q ++ ": " ++ q ++ "xyz789" ++ q
                     ++ "}")
                    (or_intror (or_introl eq_refl)) eq_refl eq_refl eq_refl
                    eq_refl eq_refl (or_introl eq_refl)
                    ltac:(discriminate) eq_refl));
      [vm_refl | exact Hc | exact Hh].
Defined.

(** The empty body. *)
Lemma quote_free_body_falls_back_witness :
  quote_free (text {| status_code := 200; headers := ∅; cookies := ∅; text := "" |})
  = true
  /\ run (serving ok_bare)
       (Token._extract_quote_token
          {| status_code := 200; headers := ∅; cookies := ∅; text := "" |} ∅)
       Token.fresh
     = (Returned (Some "99227e34c9"),
        with_log WARNING "Could not extract quote token, using fallback" Token.fresh).
Proof.
  split; [reflexivity|].
  exact (proj1 (quote_free_body_falls_back (serving ok_bare)
                  {| status_code := 200; headers := ∅; cookies := ∅; text := "" |}
                  ∅ Token.fresh eq_refl)).
Defined.

(** A page with the header and both keys: no warning. A bare page: two. *)
Lemma success_log_witness :
  (csrf_token (self Token.fresh) = None \/ quote_token (self Token.fresh) = None)
  /\ log (served ok_header)
     = [(INFO, "Fetching authentication tokens from Futunn");
        (INFO, "Successfully fetched tokens: csrf=True, quote=True")]
  /\ log (served ok_bare)
     = [(INFO, "Fetching authentication tokens from Futunn");
        (WARNING, "Could not extract CSRF token, using fallback");
        (WARNING, "Could not extract quote token, using fallback");
        (INFO, "Successfully fetched tokens: csrf=True, quote=True")].
Proof.
  assert (csrf_token (self Token.fresh) = None
          \/ quote_token (self Token.fresh) = None) as Hn by (left; reflexivity).
  split; [exact Hn|]. split.
  - rewrite (success_log page (serving ok_header) Token.fresh ok_header
               Hn eq_refl eq_refl).
    vm_refl.
  - rewrite (success_log page (serving ok_bare) Token.fresh ok_bare
               Hn eq_refl eq_refl).
    vm_refl.
Defined.

Lemma failure_log_witness :
  Token.Authenticated (self cached)
  /\ log (run flaky get_tokens cached).2 = log cached
  /\ (csrf_token (self Token.fresh) = None \/ quote_token (self Token.fresh) = None)
  /\ log (run flaky get_tokens Token.fresh).2
     = (log Token.fresh
        ++ [(INFO, "Fetching authentication tokens from Futunn");
            (ERROR, ("Network error while fetching tokens: "
                     ++ "connection refused")%string)])%list
  /\ log (run (serving forbidden) get_tokens Token.fresh).2
     = (log Token.fresh
        ++ [(INFO, "Fetching authentication tokens from Futunn")])%list.
Proof.
  assert (Token.Authenticated (self cached)) as Ha.
  { split; eexists; reflexivity. }
  assert (csrf_token (self Token.fresh) = None
          \/ quote_token (self Token.fresh) = None) as Hn by (left; reflexivity).
  assert (status_code forbidden <> 200%Z) as Hst by (simpl; lia).
  split; [exact Ha|].
  split; [exact (proj1 (failure_log page flaky cached) Ha)|].
  split; [exact Hn|]. split.
  - exact (proj1 (proj2 (failure_log page flaky Token.fresh) Hn)
             "connection refused" eq_refl).
  - exact (proj2 (proj2 (failure_log page (serving forbidden) Token.fresh) Hn)
             forbidden eq_refl Hst).
Defined.

(** The header of the page ends up in the header for the API. *)
Lemma tokens_from_page_witness :
  (csrf_token (self Token.fresh) = None \/ quote_token (self Token.fresh) = None)
  /\ serving ok_header (length (sent Token.fresh)) = Responded ok_header
  /\ status_code ok_header = 200%Z
  /\ headers ok_header !! "x-csrf-token" = Some "hdr456"
  /\ exists w',
       run (serving ok_header) get_tokens Token.fresh
       = (Returned (Token._build_headers page (self w')), w')
       /\ Token._build_headers page (self w') !! "futu-x-csrf-token" = Some "hdr456".
Proof.
  assert (csrf_token (self Token.fresh) = None
          \/ quote_token (self Token.fresh) = None) as Hn by (left; reflexivity).
  assert (headers ok_header !! "x-csrf-token" = Some "hdr456") as Hh by vm_refl.
  split; [exact Hn|]. split; [reflexivity|]. split; [reflexivity|].
  split; [exact Hh|].
  destruct (tokens_from_page page (serving ok_header) Token.fresh ok_header
              Hn eq_refl eq_refl)
    as (c & q0 & w' & Hrun & _ & _ & Hc & _ & Hhdr & _).
  exists w'. split; [exact Hrun|].
  rewrite Hc. f_equal. apply (Hhdr "hdr456" Hh). discriminate.
Defined.

Lemma requests_are_page_visits_witness :
  Token.reachable page flaky
    (run flaky (Token.call page Token.RefreshTokens)
       (run flaky (Token.call page Token.GetTokens) Token.fresh).2).2
  /\ Forall (fun rq => rq = page_request)
       (sent (run flaky (Token.call page Token.RefreshTokens)
                (run flaky (Token.call page Token.GetTokens) Token.fresh).2).2).
Proof.
  assert (Token.reachable page flaky
            (run flaky (Token.call page Token.RefreshTokens)
               (run flaky (Token.call page Token.GetTokens) Token.fresh).2).2) as Hr.
  { apply Token.reach_call, Token.reach_call, Token.reach_fresh. }
  split; [exact Hr|].
  exact (proj1 (requests_are_page_visits page flaky _ Hr)).
Defined.

(** The transport fails once, then serves the page. *)
Lemma failure_not_cached_witness :
  run flaky get_tokens Token.fresh
  = (Raised (TokenExpiredError "Network error: connection refused"),
     (run flaky get_tokens Token.fresh).2)
  /\ self (run flaky get_tokens Token.fresh).2 = self Token.fresh
  /\ exists h w'',
       run flaky get_tokens (run flaky get_tokens Token.fresh).2 = (Returned h, w'')
       /\ Token.Authenticated (self w'').
Proof.
  assert (run flaky get_tokens Token.fresh
          = (Raised (TokenExpiredError "Network error: connection refused"),
             (run flaky get_tokens Token.fresh).2)) as Hrun by vm_refl.
  destruct (failure_not_cached page flaky _ _ _ Hrun) as (_ & Hs & _ & Hnext).
  split; [exact Hrun|]. split; [exact Hs|].
  apply (Hnext ok_both); [vm_refl | reflexivity].
Defined.

Lemma refresh_is_invalidate_then_get_witness :
  Token.reachable page (serving ok_both)
    (run (serving ok_both) (Token.call page Token.GetTokens) Token.fresh).2
  /\ (run (serving ok_both) refresh_tokens
        (run (serving ok_both) (Token.call page Token.GetTokens) Token.fresh).2).1
     = (run (serving ok_both) get_tokens
          (run (serving ok_both) Token.invalidate
             (run (serving ok_both) (Token.call page Token.GetTokens)
                Token.fresh).2).2).1.
Proof.
  assert (Token.reachable page (serving ok_both)
            (run (serving ok_both) (Token.call page Token.GetTokens)
               Token.fresh).2) as Hr.
  { apply Token.reach_call, Token.reach_fresh. }
  split; [exact Hr|].
  exact (proj1 (refresh_is_invalidate_then_get page (serving ok_both) _ Hr)).
Defined.

(** The first caller is served the page with both keys; the second
    times out, or is served the bare page. *)
Lemma race_between_callers_witness :
  (csrf_token (self Token.fresh) = None \/ quote_token (self Token.fresh) = None)
  /\ status_code ok_both = 200%Z
  /\ status_code ok_bare = 200%Z
  /\ (exists l h0,
        steps [Start 0; Start 1; Deliver 0 (Responded ok_both);
               Deliver 1 (Failed "timed out")]
          (Token.callers page 2 Token.fresh) = Some l
        /\ tasks l
           = [Finished (Returned h0);
              Finished (Raised (TokenExpiredError ("Network error: " ++ "timed out")))]
        /\ h0 = Token._build_headers page (self (world l))
        /\ Token.Authenticated (self (world l))
        /\ sent (world l) = (sent Token.fresh ++ [page_request; page_request])%list)
  /\ (exists l c1 q1,
        steps [Start 0; Start 1; Deliver 0 (Responded ok_both);
               Deliver 1 (Responded ok_bare)]
          (Token.callers page 2 Token.fresh) = Some l
        /\ csrf_token (self (world l)) = Some c1
        /\ quote_token (self (world l)) = Some q1
        /\ (run flaky (Token._extract_csrf_token ok_bare (cookies ok_bare)) cached).1
           = Returned (Some c1)
        /\ (run flaky (Token._extract_quote_token ok_bare (cookies ok_bare)) cached).1
           = Returned (Some q1)).
Proof.
  assert (csrf_token (self Token.fresh) = None
          \/ quote_token (self Token.fresh) = None) as Hn by (left; reflexivity).
  destruct (race_between_callers page Token.fresh ok_both Hn eq_refl)
    as [Hfail Hlast].
  split; [exact Hn|]. split; [reflexivity|]. split; [reflexivity|].
  split; [exact (Hfail "timed out")|].
  destruct (Hlast ok_bare eq_refl)
    as (l & h0 & h1 & c1 & q1 & Hsteps & _ & _ & Hc & Hq & Hvc & Hvq & _).
  exists l, c1, q1. split; [exact Hsteps|]. split; [exact Hc|].
  split; [exact Hq|]. split; [apply Hvc | apply Hvq].
Defined.

End MoreRuns.
